(** * The span-buffering consumer: [sentry.spans.consumers.process.factory]

    A shallow embedding of [prepare_message] and [process_batch], the two
    functions of the consumer that carry logic, together with the contract of
    the buffer they feed.  Python values coming out of the JSON decoder are
    kept as a small universe [pyval]; exceptions are values of [exn] carried
    by the [result] monad; the buffer, which [process_batch] mutates through
    one method call, is threaded explicitly. *)

From Stdlib Require Import ZArith Lia.
From stdpp Require Import base list strings gmap.

Set Warnings "-register-all".

(** ** Python values and exceptions *)

(** A Python [float]: a binary floating point number [m * 2^e], or one of
    [nan], [inf], [-inf] (which rapidjson accepts in its default mode). *)
Inductive pyfloat :=
  | FFinite (m e : Z)
  | FNonFinite.

(** What [rapidjson.loads] can return. *)
Inductive pyval :=
  | PyNone
  | PyBool (b : bool)
  | PyInt (n : Z)
  | PyFloat (f : pyfloat)
  | PyStr (s : string)
  | PyList (l : list pyval)
  | PyDict (d : gmap string pyval).

(** The exceptions [process_batch] can raise. *)
Inductive exn :=
  | JSONDecodeError
  | UnicodeDecodeError
  | AttributeError
  | KeyError (k : string)
  | AssertionError.

(** The two ways [rapidjson.loads] fails on bytes: the text is not JSON, or
    a string in it is not UTF-8. *)
Inductive decode_failure :=
  | NotJSON
  | NotUTF8.

Definition raised_by (f : decode_failure) : exn :=
  match f with
  | NotJSON => JSONDecodeError
  | NotUTF8 => UnicodeDecodeError
  end.

Inductive result (A : Type) :=
  | Ok (a : A)
  | Raise (e : exn).
Arguments Ok {A} a.
Arguments Raise {A} e.

#[global] Instance result_ret : MRet result := λ A a, Ok a.
#[global] Instance result_bind : MBind result := λ A B f m,
  match m with
  | Ok a => f a
  | Raise e => Raise e
  end.

(** [bool(v)] *)
Definition truthy (v : pyval) : bool :=
  match v with
  | PyNone => false
  | PyBool b => b
  | PyInt n => negb (n =? 0)%Z
  | PyFloat (FFinite m _) => negb (m =? 0)%Z
  | PyFloat FNonFinite => true
  | PyStr s => negb (String.eqb s "")
  | PyList l => negb (Nat.eqb (length l) 0)
  | PyDict d => negb (Nat.eqb (size d) 0)
  end.

(** [v is None] *)
Definition is_none (v : pyval) : bool :=
  match v with
  | PyNone => true
  | _ => false
  end.

(** [isinstance(v, dict)] *)
Definition is_dict (v : pyval) : bool :=
  match v with
  | PyDict _ => true
  | _ => false
  end.

Definition is_assertion_error {A : Type} (r : result A) : bool :=
  match r with
  | Raise AssertionError => true
  | _ => false
  end.

(** [val.get(k)]: only a [dict] has the method. *)
Definition py_get (val : pyval) (k : string) : result pyval :=
  match val with
  | PyDict d => Ok (default PyNone (d !! k))
  | _ => Raise AttributeError
  end.

(** [val[k]], used once [val.get] has succeeded, on a [dict]. *)
Definition py_getitem (val : pyval) (k : string) : result pyval :=
  match val with
  | PyDict d =>
      match d !! k with
      | Some v => Ok v
      | None => Raise (KeyError k)
      end
  | _ => Raise AttributeError
  end.

(** [for v in vs: st = body(st, v)], stopping at the first exception. *)
Fixpoint for_each {S V : Type} (body : S → V → result S) (st : S) (vs : list V)
    : result S :=
  match vs with
  | [] => Ok st
  | v :: vs' => st' ← body st v; for_each body st' vs'
  end.

(** ** The arroyo types the consumer touches *)

Module Partition.
Record t := mk { topic : string; index : Z }.
End Partition.

Module KafkaPayload.
Record t := mk { key : option (list Byte.byte); value : list Byte.byte }.
End KafkaPayload.

(** [T] is the payload type and [D] the type of the broker timestamp.  A
    [committable] is a mapping from partitions to offsets, kept as the list
    of its items in iteration order (the partitions are pairwise distinct, so
    [len] is the length of the list). *)
Module Message.
Record t (D T : Type) := mk {
  payload : T;
  committable : list (Partition.t * Z);
  timestamp : option D
}.
Arguments mk {D T} _ _ _.
Arguments payload {D T} _.
Arguments committable {D T} _.
Arguments timestamp {D T} _.
End Message.

(** [sentry.spans.buffer.Span], as [process_batch] builds it. *)
Module Span.
Record t := mk {
  partition : Z;
  trace_id : pyval;
  span_id : pyval;
  parent_span_id : pyval;
  project_id : pyval;
  payload : list Byte.byte;
  is_segment_span : bool
}.
End Span.

(** The context handed to [killswitches.killswitch_matches_context]. *)
Module KillswitchContext.
Record t := mk {
  org_id : pyval;
  project_id : pyval;
  trace_id : pyval;
  partition_id : Z
}.
End KillswitchContext.

(** ** [create_with_partitions] *)

(** [first_partition = next((p.index for p in partitions), 0)] *)
Definition first_partition_of (partitions : list (Partition.t * Z)) : Z :=
  match partitions with
  | (p, _) :: _ => Partition.index p
  | [] => 0%Z
  end.

(** [assigned_shards=[p.index for p in partitions]] *)
Definition assigned_shards_of (partitions : list (Partition.t * Z)) : list Z :=
  (λ pi, Partition.index pi.1) <$> partitions.

Section prepare_message.
(** [float], [int(_)] on it, [datetime] and [datetime.timestamp()] belong
    to the interpreter; the wall clock [time.time()] is an input. *)
Variables (float datetime : Type).
Variable int : float → Z.
Variable datetime_timestamp : datetime → float.

Definition prepare_message (time_time : float)
    (message : Message.t datetime KafkaPayload.t) : Z * KafkaPayload.t :=
  (int (match Message.timestamp message with
        | Some ts => datetime_timestamp ts
        | None => time_time
        end),
   Message.payload message).
End prepare_message.

Section process_batch.
Context {D : Type}.
(** [rapidjson.loads]; [None] stands for the call raising, and
    [loads_error] tells which of its two exceptions it raises then. *)
Variable loads : list Byte.byte → option pyval.
Variable loads_error : list Byte.byte → decode_failure.
(** [killswitches.killswitch_matches_context], the admission predicate. *)
Variable killswitch_matches_context : string → KillswitchContext.t → bool.
(** [SpansBuffer] and its [process_spans(spans, now=...)] method. *)
Variable SpansBuffer : Type.
Variable process_spans : SpansBuffer → list Span.t → Z → SpansBuffer.

Definition rapidjson_loads (bs : list Byte.byte) : result pyval :=
  match loads bs with
  | Some v => Ok v
  | None => Raise (raised_by (loads_error bs))
  end.

(** The shard of one message of the batch. *)
Definition partition_id_of (first_partition : Z)
    (committable : list (Partition.t * Z)) : Z :=
  match committable with
  | [(p, _)] => Partition.index p
  | _ => first_partition
  end.

(** One iteration of the loop, on the loop's two variables. *)
Definition loop_body (first_partition : Z) (st : option Z * list Span.t)
    (value : Message.t D (Z * KafkaPayload.t))
    : result (option Z * list Span.t) :=
  let '(min_timestamp, spans) := st in
  let '(timestamp, payload) := Message.payload value in
  let min_timestamp :=
    match min_timestamp with
    | None => Some timestamp
    | Some m => if (timestamp <? m)%Z then Some timestamp else Some m
    end in
  val ← rapidjson_loads (KafkaPayload.value payload);
  let partition_id :=
    partition_id_of first_partition (Message.committable value) in
  org ← py_get val "organization_id";
  proj ← py_get val "project_id";
  trace ← py_get val "trace_id";
  if killswitch_matches_context "spans.drop-in-buffer"
       (KillswitchContext.mk org proj trace partition_id)
  then mret (min_timestamp, spans)
  else
    trace_id ← py_getitem val "trace_id";
    span_id ← py_getitem val "span_id";
    parent_span_id ← py_get val "parent_span_id";
    project_id ← py_getitem val "project_id";
    parent ← py_get val "parent_span_id";
    is_remote ← py_get val "is_remote";
    let span :=
      Span.mk partition_id trace_id span_id parent_span_id project_id
        (KafkaPayload.value payload)
        (is_none parent || truthy is_remote) in
    mret (min_timestamp, spans ++ [span]).

Definition run_loop (first_partition : Z)
    (values : list (Message.t D (Z * KafkaPayload.t)))
    : result (option Z * list Span.t) :=
  for_each (loop_body first_partition) (None, []) values.

(** The buffer after the call, and the value returned or the exception. *)
Definition process_batch (buffer : SpansBuffer) (first_partition : Z)
    (values : Message.t D (list (Message.t D (Z * KafkaPayload.t))))
    : SpansBuffer * result Z :=
  match run_loop first_partition (Message.payload values) with
  | Raise e => (buffer, Raise e)
  | Ok (None, _) => (buffer, Raise AssertionError)
  | Ok (Some min_timestamp, spans) =>
      (process_spans buffer spans min_timestamp, Ok min_timestamp)
  end.
End process_batch.

(** ** What the loop does with one message, read off [loop_body] *)

Inductive verdict :=
  | Fails (e : exn)
  | Dropped
  | Kept (s : Span.t).

Section verdicts.
Context {D : Type}.
Variable loads : list Byte.byte → option pyval.
Variable loads_error : list Byte.byte → decode_failure.
Variable killswitch_matches_context : string → KillswitchContext.t → bool.

Definition timestamp_of (value : Message.t D (Z * KafkaPayload.t)) : Z :=
  (Message.payload value).1.
Definition bytes_of (value : Message.t D (Z * KafkaPayload.t)) : list Byte.byte :=
  KafkaPayload.value (Message.payload value).2.

(** The span [process_batch] builds from a record that has the three
    required keys. *)
Definition span_of (first_partition : Z)
    (value : Message.t D (Z * KafkaPayload.t)) (d : gmap string pyval)
    (trace span project : pyval)
    : Span.t :=
  Span.mk (partition_id_of first_partition (Message.committable value))
    trace span (default PyNone (d !! "parent_span_id")) project
    (bytes_of value)
    (is_none (default PyNone (d !! "parent_span_id"))
     || truthy (default PyNone (d !! "is_remote"))).

(** The outcome of one iteration started on an empty list of spans. *)
Definition verdict_of (first_partition : Z)
    (value : Message.t D (Z * KafkaPayload.t)) : verdict :=
  match loop_body loads loads_error killswitch_matches_context first_partition
          (None, []) value with
  | Raise e => Fails e
  | Ok (_, []) => Dropped
  | Ok (_, s :: _) => Kept s
  end.

Definition kept_span (first_partition : Z)
    (value : Message.t D (Z * KafkaPayload.t)) : option Span.t :=
  match verdict_of first_partition value with
  | Kept s => Some s
  | _ => None
  end.

Definition survives (first_partition : Z)
    (value : Message.t D (Z * KafkaPayload.t)) : Prop :=
  is_Some (kept_span first_partition value).

#[global] Instance survives_dec first_partition value :
  Decision (survives first_partition value).
Proof. unfold survives. apply _. Defined.

Definition failure_of (first_partition : Z)
    (value : Message.t D (Z * KafkaPayload.t)) : option exn :=
  match verdict_of first_partition value with
  | Fails e => Some e
  | _ => None
  end.

(** The exception the loop stops on, if any message raises one. *)
Definition first_failure (first_partition : Z)
    (values : list (Message.t D (Z * KafkaPayload.t))) : option exn :=
  head (omap (failure_of first_partition) values).

(** The spans of the messages that get through, in the order of the batch. *)
Definition kept (first_partition : Z)
    (values : list (Message.t D (Z * KafkaPayload.t))) : list Span.t :=
  omap (kept_span first_partition) values.

(** The admission predicate applied to a decoded record. *)
Definition rejected (first_partition : Z)
    (value : Message.t D (Z * KafkaPayload.t)) (d : gmap string pyval) : bool :=
  killswitch_matches_context "spans.drop-in-buffer"
    (KillswitchContext.mk
       (default PyNone (d !! "organization_id"))
       (default PyNone (d !! "project_id"))
       (default PyNone (d !! "trace_id"))
       (partition_id_of first_partition (Message.committable value))).
End verdicts.

(** [min_timestamp] after the loop has seen the timestamps [ts]. *)
Definition fold_min (m : option Z) (ts : list Z) : option Z :=
  foldl (λ m t, Some (match m with None => t | Some x => Z.min x t end)) m ts.

(** The segment-root test of the record, in the words of the data model. *)
Definition parent_absent (d : gmap string pyval) : Prop :=
  d !! "parent_span_id" = None ∨ d !! "parent_span_id" = Some PyNone.
Definition marked_remote (d : gmap string pyval) : Prop :=
  ∃ v, d !! "is_remote" = Some v ∧ truthy v = true.

(** ** The buffer engine *)

Module BufferEngine.
Local Open Scope Z_scope.

(** Modelled from the spec: the Span of the data model, as the buffer
    engine ([sentry.spans.buffer], not among the sources) stores it. *)
Record Span := mkSpan {
  shard : Z;
  trace_id : string;
  span_id : string;
  parent_span_id : option string;
  project_id : Z;
  payload : list Byte.byte;
  is_segment_root : bool
}.

(** Modelled from the spec: the Segment of the data model, one per
    (shard, trace_id) while open. *)
Record Segment := mkSegment {
  spans : list Span;
  last_update : Z;
  created_at : Z
}.

(** Modelled from the spec: the state the buffer engine retains across
    batches: its assigned shards, the open segments, and the tracked
    watermark of each shard. *)
Record t := mk {
  assigned_shards : gset Z;
  segments : gmap (Z * string) Segment;
  watermarks : gmap Z Z
}.

(** Modelled from the spec: the flush idle threshold, 120 seconds of
    logical time. *)
Definition flush_threshold : Z := 120.

(** Modelled from the spec: an engine that has not ingested anything. *)
Definition init (shards : gset Z) : t := mk shards ∅ ∅.

(** Modelled from the spec: ingestion of one span: create the segment for
    (shard, trace_id) if absent, append the span if its span_id is not
    already present, and set last_update = max(last_update, now). *)
Definition ingest_span (sh now : Z) (segs : gmap (Z * string) Segment)
    (s : Span) : gmap (Z * string) Segment :=
  let k := (sh, trace_id s) in
  match segs !! k with
  | None => <[k := mkSegment [s] now now]> segs
  | Some seg =>
      <[k := mkSegment
               (if decide (span_id s ∈ span_id <$> spans seg)
                then spans seg else spans seg ++ [s])
               (Z.max (last_update seg) now)
               (created_at seg)]> segs
  end.

(** Modelled from the spec: the tracked watermark of a shard after one
    more ingest call at [now]: the maximum [now] seen so far. *)
Definition advance (w : option Z) (now : Z) : Z :=
  match w with
  | None => now
  | Some w => Z.max w now
  end.

(** Modelled from the spec: [ingest(shard, spans, now)]; it only operates
    within the assigned shards. *)
Definition ingest (e : t) (sh : Z) (ss : list Span) (now : Z) : t :=
  if decide (sh ∈ assigned_shards e) then
    mk (assigned_shards e)
       (foldl (ingest_span sh now) (segments e) ss)
       (<[sh := advance (watermarks e !! sh) now]> (watermarks e))
  else e.

(** Modelled from the spec: the segments of [sh] that are flushable at the
    tracked watermark [w]. *)
Definition flushable (sh w : Z) (kv : Z * string * Segment) : Prop :=
  kv.1.1 = sh ∧ flush_threshold ≤ w - last_update kv.2.

#[global] Instance flushable_dec sh w kv : Decision (flushable sh w kv).
Proof. unfold flushable. apply _. Defined.

(** Modelled from the spec: [take_flushable(shard, watermark)]: every
    segment of the shard whose tracked watermark minus last_update reaches
    the threshold is removed from the live state and returned; the
    comparison uses the tracked watermark, not the caller's value. *)
Definition take_flushable (e : t) (sh : Z) (watermark : Z)
    : list (Z * string * Segment) * t :=
  if decide (sh ∈ assigned_shards e) then
    match watermarks e !! sh with
    | Some w =>
        (map_to_list (filter (flushable sh w) (segments e)),
         mk (assigned_shards e)
            (filter (λ kv, ¬ flushable sh w kv) (segments e))
            (watermarks e))
    | None => ([], e)
    end
  else ([], e).

(** Modelled from the spec: the states the engine can be in: it starts
    empty and changes only through its two operations. *)
Inductive reachable : t → Prop :=
  | reach_init shards : reachable (init shards)
  | reach_ingest e sh ss now :
      reachable e → reachable (ingest e sh ss now)
  | reach_take e sh watermark :
      reachable e → reachable (take_flushable e sh watermark).2.

(** What holds of every reachable state: a segment lives on an assigned
    shard whose tracked watermark is at least the segment's last_update. *)
Definition clocked (e : t) : Prop :=
  ∀ sh tr seg, segments e !! (sh, tr) = Some seg →
    sh ∈ assigned_shards e ∧
    ∃ w, watermarks e !! sh = Some w ∧ last_update seg ≤ w.

(** What the segments look like while [ingest] works through its spans: the
    shard [sh] already has its new watermark [w']. *)
Definition clocked_at (shards : gset Z) (wms : gmap Z Z)
    (segs : gmap (Z * string) Segment) : Prop :=
  ∀ sh tr seg, segs !! (sh, tr) = Some seg →
    sh ∈ shards ∧ ∃ w, wms !! sh = Some w ∧ last_update seg ≤ w.

(** Scenario A of the spec: two spans of [trace1] ingested at logical time
    30, then a span of another trace at 151. *)
Definition span_1 : Span := mkSpan 0 "trace1" "a" None 5 [] true.
Definition span_2 : Span := mkSpan 0 "trace1" "b" (Some "a") 5 [] false.
Definition span_3 : Span := mkSpan 0 "trace2" "c" None 5 [] true.
Definition engine_30 : t := ingest (init {[0]}) 0 [span_1; span_2; span_1] 30.
Definition engine_151 : t := ingest engine_30 0 [span_3] 151.
Definition segment_1 : Segment := mkSegment [span_1; span_2] 30 30.
End BufferEngine.

(** ** The buffer engine behind [process_spans] *)

Module EngineBuffer.
Section engine_buffer.
(** How the engine stores a span that the consumer built: the data model
    has strings and integers where the consumer has the values of the
    decoded JSON. *)
Variable stored : Span.t → BufferEngine.Span.

(** Modelled from the spec: [SpansBuffer.process_spans(spans, now)]
    ([sentry.spans.buffer] is not among the sources), the engine's ingestion
    operation as [process_batch] calls it.  The call names no shard and each
    span carries its own: it is an [ingest], at [now], on each assigned
    shard, of the spans that carry that shard. *)
Definition process_spans (e : BufferEngine.t) (spans : list Span.t) (now : Z)
    : BufferEngine.t :=
  foldl (λ e sh,
           BufferEngine.ingest e sh
             (stored <$> filter (λ s, Span.partition s = sh) spans) now)
    e (elements (BufferEngine.assigned_shards e)).
End engine_buffer.
End EngineBuffer.

(** ** A concrete environment for running the consumer *)

Module Demo.
Local Open Scope Z_scope.

#[global] Instance byte_eq_dec : EqDecision Byte.byte := Byte.byte_eq_dec.

Definition bytes (s : string) : list Byte.byte := String.list_byte_of_string s.

(** A JSON string literal: [s] between two double quote characters. *)
Definition quoted (s : string) : string :=
  String (Ascii.ascii_of_nat 34) (s +:+ String (Ascii.ascii_of_nat 34) "").

(** [{k1:v1,k2:v2,...}] from the texts of the members. *)
Fixpoint members (kvs : list (string * string)) : string :=
  match kvs with
  | [] => ""
  | [(k, v)] => quoted k +:+ ":" +:+ v
  | (k, v) :: rest => quoted k +:+ ":" +:+ v +:+ "," +:+ members rest
  end.
Definition object (kvs : list (string * string)) : list Byte.byte :=
  bytes ("{" +:+ members kvs +:+ "}").

(** Root span [a] of trace [t1], project 5. *)
Definition payload_a : list Byte.byte :=
  object [("trace_id", quoted "t1"); ("span_id", quoted "a"); ("project_id", "5")].
Definition record_a : gmap string pyval :=
  list_to_map [("trace_id", PyStr "t1"); ("span_id", PyStr "a"); ("project_id", PyInt 5)].

(** Child span [b] of [a], same trace and project. *)
Definition payload_b : list Byte.byte :=
  object [("trace_id", quoted "t1"); ("span_id", quoted "b");
          ("parent_span_id", quoted "a"); ("project_id", "5")].
Definition record_b : gmap string pyval :=
  list_to_map [("trace_id", PyStr "t1"); ("span_id", PyStr "b");
               ("parent_span_id", PyStr "a"); ("project_id", PyInt 5)].

(** A span with a parent that is marked remote. *)
Definition payload_r : list Byte.byte :=
  object [("trace_id", quoted "t2"); ("span_id", quoted "r");
          ("parent_span_id", quoted "x"); ("is_remote", "true");
          ("project_id", "5")].
Definition record_r : gmap string pyval :=
  list_to_map [("trace_id", PyStr "t2"); ("span_id", PyStr "r");
               ("parent_span_id", PyStr "x"); ("is_remote", PyBool true);
               ("project_id", PyInt 5)].

(** A record of project 6 without a [span_id]. *)
Definition payload_k : list Byte.byte :=
  object [("trace_id", quoted "t1"); ("project_id", "6")].
Definition record_k : gmap string pyval :=
  list_to_map [("trace_id", PyStr "t1"); ("project_id", PyInt 6)].

(** A record of project 5 without a [span_id]. *)
Definition payload_m : list Byte.byte :=
  object [("trace_id", quoted "t1"); ("project_id", "5")].
Definition record_m : gmap string pyval :=
  list_to_map [("trace_id", PyStr "t1"); ("project_id", PyInt 5)].

(** Not JSON at all. *)
Definition payload_x : list Byte.byte := bytes "{not json".

(** [rapidjson.loads] on the texts above; any other text is taken to be
    malformed. *)
Definition decoder_table : list (list Byte.byte * pyval) :=
  [ (payload_a, PyDict record_a); (payload_b, PyDict record_b);
    (payload_r, PyDict record_r); (payload_k, PyDict record_k);
    (payload_m, PyDict record_m) ].
Definition loads (bs : list Byte.byte) : option pyval :=
  snd <$> (snd <$> list_find (λ e, e.1 = bs) decoder_table).

(** The texts used here are ASCII: when [loads] fails on one of them, the
    text is not JSON. *)
Definition loads_error (bs : list Byte.byte) : decode_failure := NotJSON.

(** A killswitch set up to drop the spans of project 6. *)
Definition killswitch_matches_context (name : string)
    (ctx : KillswitchContext.t) : bool :=
  String.eqb name "spans.drop-in-buffer" &&
  match KillswitchContext.project_id ctx with
  | PyInt 6 => true
  | _ => false
  end.

(** A buffer that records the calls of [process_spans]. *)
Definition SpansBuffer : Type := list (list Span.t * Z).
Definition process_spans (buffer : SpansBuffer) (spans : list Span.t) (now : Z)
    : SpansBuffer :=
  buffer ++ [(spans, now)].

Definition spans_topic (i : Z) : Partition.t := Partition.mk "ingest-spans" i.

(** A message of the batch: logical timestamp, text, source partitions. *)
Definition value (ts : Z) (bs : list Byte.byte) (c : list (Partition.t * Z))
    : Message.t unit (Z * KafkaPayload.t) :=
  Message.mk (ts, KafkaPayload.mk None bs) c None.

Definition batch (vs : list (Message.t unit (Z * KafkaPayload.t)))
    : Message.t unit (list (Message.t unit (Z * KafkaPayload.t))) :=
  Message.mk vs (mjoin (Message.committable <$> vs)) None.

(** Messages used below: [a] and [b] from partition 1, [b'] from partition
    2, the remote span [r], the record [k] of the killswitched project and
    the record [m], both without [span_id], and a text that is not JSON. *)
Definition msg_a := value 30 payload_a [(spans_topic 1, 7)].
Definition msg_b := value 40 payload_b [(spans_topic 1, 8)].
Definition msg_b' := value 10 payload_b [(spans_topic 2, 4)].
Definition msg_r := value 50 payload_r [(spans_topic 1, 9)].
Definition msg_k := value 20 payload_k [(spans_topic 1, 6)].
Definition msg_m := value 45 payload_m [(spans_topic 1, 10)].
Definition msg_x := value 60 payload_x [(spans_topic 1, 11)].

Definition run (first_partition : Z)
    (vs : list (Message.t unit (Z * KafkaPayload.t))) : SpansBuffer * result Z :=
  process_batch loads loads_error killswitch_matches_context SpansBuffer process_spans
    [] first_partition (batch vs).
End Demo.

(** ** More of the consumer: the factory object and its wiring *)

(** The keys [Span(...)] reads with [val[...]], in the order of its keyword
    arguments, and the first of them that a record lacks. *)
Definition required_keys : list string := ["trace_id"; "span_id"; "project_id"].
Definition first_missing_key (d : gmap string pyval) : option string :=
  snd <$> list_find (λ k, d !! k = None) required_keys.

Section admission.
Context {D : Type}.
Variable loads : list Byte.byte → option pyval.
Variable killswitch_matches_context : string → KillswitchContext.t → bool.

(** Whether the loop leaves the message out at its [continue]: the payload
    decodes to a record and the admission predicate matches it. *)
Definition is_rejected (first_partition : Z)
    (value : Message.t D (Z * KafkaPayload.t)) : bool :=
  match loads (bytes_of value) with
  | Some (PyDict d) => rejected killswitch_matches_context first_partition value d
  | _ => false
  end.

(** Whether the loop gets past the message, said without running the loop:
    the payload decodes to a record, and the admission predicate matches the
    record or the record has the keys that [Span(...)] reads. *)
Definition is_usable (first_partition : Z)
    (value : Message.t D (Z * KafkaPayload.t)) : bool :=
  match loads (bytes_of value) with
  | Some (PyDict d) =>
      rejected killswitch_matches_context first_partition value d
      || bool_decide (first_missing_key d = None)
  | _ => false
  end.
End admission.

Module Factory.
Section factory.
(** [MultiprocessingPool], its constructor and its [close()], and the type of
    the [produce_to_pipe] callback, come from outside the module. *)
Variables (Pool Pipe : Type).
Variable MultiprocessingPool : Z → Pool.
Variable close : Pool → Pool.

(** The attributes of a [ProcessSpansStrategyFactory].  The private [__pool]
    is set only by the [if] of [__init__]; reading it when it was not set
    raises [AttributeError]. *)
Record t := mk {
  max_batch_size : Z;
  max_batch_time : Z;
  input_block_size : option Z;
  output_block_size : option Z;
  num_processes : Z;
  produce_to_pipe : option Pipe;
  pool : option Pool
}.

(** [__init__] *)
Definition init (max_batch_size max_batch_time num_processes : Z)
    (input_block_size output_block_size : option Z)
    (produce_to_pipe : option Pipe) : t :=
  mk max_batch_size max_batch_time input_block_size output_block_size
    num_processes produce_to_pipe
    (if decide (num_processes ≠ 1%Z)
     then Some (MultiprocessingPool num_processes) else None).

(** [self.__pool] *)
Definition get_pool (self : t) : result Pool :=
  match pool self with
  | Some p => Ok p
  | None => Raise AttributeError
  end.

(** The decode step [create_with_partitions] builds. *)
Inductive run_task :=
  | RunTaskWithMultiprocessing (pool : Pool) (max_batch_size max_batch_time : Z)
      (input_block_size output_block_size : option Z)
  | RunTask.

(** What [create_with_partitions] wires together: the shards of the buffer,
    the default shard bound into [process_batch], the decode step, the
    bounds of the [BatchStep] and the callback of the flusher. *)
Record strategy := mk_strategy {
  assigned_shards : list Z;
  first_partition : Z;
  decode : run_task;
  batch_size : Z;
  batch_time : Z;
  flusher_pipe : option Pipe
}.

(** [create_with_partitions] *)
Definition create_with_partitions (self : t)
    (partitions : list (Partition.t * Z)) : result strategy :=
  let shards := assigned_shards_of partitions in
  let first := first_partition_of partitions in
  step ← (if decide (num_processes self ≠ 1%Z)
          then p ← get_pool self;
               mret (RunTaskWithMultiprocessing p (max_batch_size self)
                       (max_batch_time self) (input_block_size self)
                       (output_block_size self))
          else mret RunTask);
  mret (mk_strategy shards first step (max_batch_size self)
          (max_batch_time self) (produce_to_pipe self)).

(** [shutdown]; the pool is an object the factory holds, so closing it
    shows in the factory. *)
Definition shutdown (self : t) : result t :=
  if decide (num_processes self ≠ 1%Z)
  then p ← get_pool self;
       mret (mk (max_batch_size self) (max_batch_time self)
               (input_block_size self) (output_block_size self)
               (num_processes self) (produce_to_pipe self) (Some (close p)))
  else mret self.
End factory.
End Factory.

(** More concrete inputs: a killswitch that is off, a consumer of partitions
    1 and 2, and a complete record of the killswitched project 6. *)
Module Scenarios.
Local Open Scope Z_scope.

Definition killswitch_off (name : string) (ctx : KillswitchContext.t) : bool :=
  false.

Definition partitions : list (Partition.t * Z) :=
  [(Demo.spans_topic 1, 0); (Demo.spans_topic 2, 0)].

Definition payload_s : list Byte.byte :=
  Demo.object [("trace_id", Demo.quoted "t3"); ("span_id", Demo.quoted "s");
               ("project_id", "6")].
Definition record_s : gmap string pyval :=
  list_to_map [("trace_id", PyStr "t3"); ("span_id", PyStr "s");
               ("project_id", PyInt 6)].
Definition loads (bs : list Byte.byte) : option pyval :=
  if decide (bs = payload_s) then Some (PyDict record_s) else Demo.loads bs.

Definition msg_s := Demo.value 25 payload_s [(Demo.spans_topic 1, 5)].

(** A way of storing the consumer's spans in the engine. *)
Definition text (v : pyval) : string :=
  match v with
  | PyStr s => s
  | _ => ""
  end.
Definition stored (s : Span.t) : BufferEngine.Span :=
  BufferEngine.mkSpan (Span.partition s) (text (Span.trace_id s))
    (text (Span.span_id s))
    (match Span.parent_span_id s with PyStr p => Some p | _ => None end)
    (match Span.project_id s with PyInt n => n | _ => 0 end)
    (Span.payload s) (Span.is_segment_span s).

(** A JSON string whose one byte, [0xff], is not UTF-8: [rapidjson.loads]
    raises [UnicodeDecodeError] on it. *)
Definition payload_u : list Byte.byte := [Byte.x22; Byte.xff; Byte.x22].
Definition loads_error (bs : list Byte.byte) : decode_failure :=
  if decide (bs = payload_u) then NotUTF8 else NotJSON.
Definition msg_u := Demo.value 35 payload_u [(Demo.spans_topic 1, 12)].

Definition run (killswitch : string → KillswitchContext.t → bool)
    (vs : list (Message.t unit (Z * KafkaPayload.t)))
    : Demo.SpansBuffer * result Z :=
  process_batch loads loads_error killswitch Demo.SpansBuffer Demo.process_spans
    [] 0 (Demo.batch vs).
End Scenarios.

(** ** The loop of [process_batch] *)

Section loop_facts.
Context {D : Type}.
Variable loads : list Byte.byte → option pyval.
Variable loads_error : list Byte.byte → decode_failure.
Variable killswitch_matches_context : string → KillswitchContext.t → bool.

Implicit Types (value : Message.t D (Z * KafkaPayload.t)).
Implicit Types (values : list (Message.t D (Z * KafkaPayload.t))).

Local Abbreviation body := (loop_body loads loads_error killswitch_matches_context).
Local Abbreviation verdict_of' := (verdict_of loads loads_error killswitch_matches_context).
Local Abbreviation kept_span' := (kept_span loads loads_error killswitch_matches_context).
Local Abbreviation failure_of' := (failure_of loads loads_error killswitch_matches_context).
Local Abbreviation rejected' := (rejected killswitch_matches_context).

Lemma fold_min_one m t :
  fold_min m [t] =
    match m with
    | None => Some t
    | Some x => if (t <? x)%Z then Some t else Some x
    end.
Proof.
  destruct m as [x|]; simpl; [|done].
  destruct (Z.ltb_spec t x); f_equal; lia.
Qed.

(** An iteration touches [min_timestamp] and [spans] independently: the
    verdict on the message decides what happens to [spans]. *)
Lemma loop_body_verdict first_partition m acc value :
  body first_partition (m, acc) value =
    match verdict_of' first_partition value with
    | Fails e => Raise e
    | Dropped => Ok (fold_min m [timestamp_of value], acc)
    | Kept s => Ok (fold_min m [timestamp_of value], acc ++ [s])
    end.
Proof.
  rewrite fold_min_one. unfold verdict_of, loop_body, timestamp_of.
  destruct value as [[t p] c ts]; simpl.
  unfold rapidjson_loads. destruct (loads _) as [val|]; simpl; [|done].
  destruct val; simpl; try done.
  destruct (killswitch_matches_context _ _); simpl; [done|].
  repeat (case_match; simpl; try done).
Qed.

Local Abbreviation first_failure' := (first_failure loads loads_error killswitch_matches_context).
Local Abbreviation kept' := (kept loads loads_error killswitch_matches_context).
Local Abbreviation run_loop' := (run_loop loads loads_error killswitch_matches_context).

(** The loop as a whole: it raises the first exception met, and otherwise
    ends with the least timestamp and the kept spans in batch order. *)
Lemma for_each_loop_body first_partition values : ∀ m acc,
  for_each (body first_partition) (m, acc) values =
    match first_failure' first_partition values with
    | Some e => Raise e
    | None => Ok (fold_min m (timestamp_of <$> values),
                  acc ++ kept' first_partition values)
    end.
Proof.
  induction values as [|v vs IH]; intros m acc.
  - simpl. by rewrite app_nil_r.
  - cbn [for_each]. rewrite loop_body_verdict.
    unfold first_failure, kept in *.
    cbn [omap list_omap]. unfold failure_of at 1, kept_span at 1.
    destruct (verdict_of' first_partition v) as [e| |s]; simpl.
    + done.
    + apply IH.
    + rewrite IH. case_match; [done|]. by rewrite <- app_assoc.
Qed.

Lemma run_loop_eq first_partition values :
  run_loop' first_partition values =
    match first_failure' first_partition values with
    | Some e => Raise e
    | None => Ok (fold_min None (timestamp_of <$> values),
                  kept' first_partition values)
    end.
Proof. unfold run_loop. by rewrite for_each_loop_body. Qed.
End loop_facts.

(** ** The least timestamp *)

Lemma fold_min_Some x ts : fold_min (Some x) ts = Some (foldl Z.min x ts).
Proof. revert x. induction ts as [|t ts IH]; intros x; [done|]. apply IH. Qed.

Lemma foldl_min_le x ts :
  (foldl Z.min x ts ≤ x)%Z ∧ Forall (Z.le (foldl Z.min x ts)) ts.
Proof.
  revert x. induction ts as [|t ts IH]; intros x; simpl.
  - split; [lia|constructor].
  - destruct (IH (Z.min x t)) as [Hle Hall]. split; [lia|].
    constructor; [lia|done].
Qed.

Lemma foldl_min_elem x ts : foldl Z.min x ts ∈ x :: ts.
Proof.
  revert x. induction ts as [|t ts IH]; intros x; simpl.
  - left.
  - specialize (IH (Z.min x t)).
    apply elem_of_cons in IH as [->|IH].
    + destruct (Z.min_spec x t) as [[_ ->]|[_ ->]]; [left|right; left].
    + right. by right.
Qed.

(** On a batch that is not empty the loop ends with a [min_timestamp], a
    timestamp of the batch that no other one is below. *)
Lemma fold_min_nonempty t ts :
  ∃ now, fold_min None (t :: ts) = Some now ∧
    now ∈ t :: ts ∧ Forall (Z.le now) (t :: ts).
Proof.
  exists (foldl Z.min t ts). split; [apply fold_min_Some|].
  split; [apply foldl_min_elem|].
  destruct (foldl_min_le t ts). by constructor.
Qed.

(** ** [process_batch] *)

Section batch_facts.
Context {D : Type}.
Variable loads : list Byte.byte → option pyval.
Variable loads_error : list Byte.byte → decode_failure.
Variable killswitch_matches_context : string → KillswitchContext.t → bool.
Variable SpansBuffer : Type.
Variable process_spans : SpansBuffer → list Span.t → Z → SpansBuffer.

Implicit Types (value : Message.t D (Z * KafkaPayload.t)).
Implicit Types (values : Message.t D (list (Message.t D (Z * KafkaPayload.t)))).
Implicit Types (buffer : SpansBuffer) (d : gmap string pyval).
Implicit Types (v : Message.t D (Z * KafkaPayload.t)).
Implicit Types (vs ws : list (Message.t D (Z * KafkaPayload.t))).

Local Abbreviation verdict_of' := (verdict_of loads loads_error killswitch_matches_context).
Local Abbreviation kept_span' := (kept_span loads loads_error killswitch_matches_context).
Local Abbreviation survives' := (survives loads loads_error killswitch_matches_context).
Local Abbreviation failure_of' := (failure_of loads loads_error killswitch_matches_context).
Local Abbreviation rejected' := (rejected killswitch_matches_context).
Local Abbreviation first_failure' := (first_failure loads loads_error killswitch_matches_context).
Local Abbreviation kept' := (kept loads loads_error killswitch_matches_context).
Local Abbreviation is_rejected' := (is_rejected loads killswitch_matches_context).
Local Abbreviation is_usable' := (is_usable loads killswitch_matches_context).
Local Abbreviation process_batch' :=
  (process_batch loads loads_error killswitch_matches_context SpansBuffer process_spans).

(** The verdict on a message, case by case. *)
Lemma verdict_of_eq first_partition value :
  verdict_of' first_partition value =
    match loads (bytes_of value) with
    | None => Fails (raised_by (loads_error (bytes_of value)))
    | Some (PyDict d) =>
        if rejected' first_partition value d then Dropped
        else match d !! "trace_id", d !! "span_id", d !! "project_id" with
             | None, _, _ => Fails (KeyError "trace_id")
             | Some _, None, _ => Fails (KeyError "span_id")
             | Some _, Some _, None => Fails (KeyError "project_id")
             | Some t, Some s, Some p => Kept (span_of first_partition value d t s p)
             end
    | Some _ => Fails AttributeError
    end.
Proof.
  unfold verdict_of, loop_body, bytes_of, rejected, span_of, bytes_of.
  destruct value as [[t p] c ts]; simpl.
  unfold rapidjson_loads. destruct (loads _) as [val|]; simpl; [|done].
  destruct val; simpl; try done.
  destruct (killswitch_matches_context _ _); simpl; [done|].
  by destruct (d !! "trace_id"), (d !! "span_id"), (d !! "project_id").
Qed.

Lemma verdict_Dropped first_partition value d :
  loads (bytes_of value) = Some (PyDict d) →
  rejected' first_partition value d = true →
  verdict_of' first_partition value = Dropped.
Proof. intros Hd Hr. by rewrite verdict_of_eq, Hd, Hr. Qed.

Lemma verdict_Kept_inv first_partition value s :
  verdict_of' first_partition value = Kept s →
  ∃ d t i p, loads (bytes_of value) = Some (PyDict d) ∧
    rejected' first_partition value d = false ∧
    d !! "trace_id" = Some t ∧ d !! "span_id" = Some i ∧
    d !! "project_id" = Some p ∧
    s = span_of first_partition value d t i p.
Proof.
  rewrite verdict_of_eq. intros H.
  repeat (case_match; simplify_eq/=). eauto 10.
Qed.

(** A message survives when its payload decodes to a record that the
    admission predicate does not match and that has the required keys. *)
Lemma survives_iff first_partition value :
  survives' first_partition value ↔
  ∃ d, loads (bytes_of value) = Some (PyDict d) ∧
    rejected' first_partition value d = false ∧
    is_Some (d !! "trace_id") ∧ is_Some (d !! "span_id") ∧
    is_Some (d !! "project_id").
Proof.
  unfold survives, kept_span. split.
  - intros [s Hs].
    destruct (verdict_of' first_partition value) eqn:Hv; simplify_eq.
    apply verdict_Kept_inv in Hv as (d & t & i & p & ? & ? & ? & ? & ? & _).
    exists d. split_and!; by eauto.
  - intros (d & Hd & Hr & [t Ht] & [i Hi] & [p Hp]).
    rewrite verdict_of_eq, Hd, Hr, Ht, Hi, Hp. by eexists.
Qed.

(** No iteration raises the exception of the [assert]. *)
Lemma failure_of_not_assertion first_partition value e :
  failure_of' first_partition value = Some e → e ≠ AssertionError.
Proof.
  unfold failure_of. rewrite verdict_of_eq. intros H.
  repeat (case_match; simplify_eq/=); try done.
  by destruct (loads_error _).
Qed.

Lemma first_failure_not_assertion first_partition vs e :
  first_failure' first_partition vs = Some e → e ≠ AssertionError.
Proof.
  unfold first_failure. intros H.
  apply head_Some in H as [l' H].
  assert (e ∈ omap (failure_of' first_partition) vs) as He
    by (rewrite H; left).
  apply list_elem_of_omap in He as (v & _ & He).
  by eapply failure_of_not_assertion.
Qed.

Lemma first_failure_elem first_partition vs v e :
  v ∈ vs → failure_of' first_partition v = Some e →
  is_Some (first_failure' first_partition vs).
Proof.
  intros Hin Hf. unfold first_failure.
  assert (e ∈ omap (failure_of' first_partition) vs) as He
    by (apply list_elem_of_omap; eauto).
  destruct (omap _ vs); [by apply elem_of_nil in He|]. by eexists.
Qed.

Lemma first_failure_app first_partition vs ws :
  first_failure' first_partition (vs ++ ws) =
    match first_failure' first_partition vs with
    | Some e => Some e
    | None => first_failure' first_partition ws
    end.
Proof.
  unfold first_failure. rewrite omap_app.
  by destruct (omap _ vs).
Qed.

Lemma kept_app first_partition vs ws :
  kept' first_partition (vs ++ ws) =
    kept' first_partition vs ++ kept' first_partition ws.
Proof. apply omap_app. Qed.

(** The kept spans are the spans of the surviving messages, one for one and
    in the same order. *)
Lemma kept_survivors first_partition vs :
  Forall2 (λ v s, verdict_of' first_partition v = Kept s)
    (filter (survives' first_partition) vs) (kept' first_partition vs).
Proof.
  unfold kept. induction vs as [|v vs IH]; [constructor|].
  cbn [omap list_omap]. rewrite filter_cons.
  destruct (decide (survives' first_partition v)) as [Hs|Hs];
    unfold survives, kept_span in *;
    destruct (verdict_of' first_partition v) eqn:Hv; simpl in *;
    try (by destruct Hs); try (by exfalso; apply Hs; eexists); try done.
  by constructor.
Qed.

(** [process_batch] in one equation: the first exception of the loop, or the
    failed [assert], or one call of [process_spans]. *)
Lemma process_batch_eq buffer first_partition values :
  process_batch' buffer first_partition values =
    match first_failure' first_partition (Message.payload values) with
    | Some e => (buffer, Raise e)
    | None =>
        match fold_min None (timestamp_of <$> Message.payload values) with
        | None => (buffer, Raise AssertionError)
        | Some now =>
            (process_spans buffer (kept' first_partition (Message.payload values)) now,
             Ok now)
        end
    end.
Proof.
  unfold process_batch. rewrite run_loop_eq.
  destruct (first_failure' _ _); [done|]. by destruct (fold_min _ _).
Qed.

Lemma process_batch_returns buffer first_partition values now :
  (process_batch' buffer first_partition values).2 = Ok now →
  first_failure' first_partition (Message.payload values) = None ∧
  fold_min None (timestamp_of <$> Message.payload values) = Some now ∧
  process_batch' buffer first_partition values =
    (process_spans buffer (kept' first_partition (Message.payload values)) now, Ok now).
Proof.
  rewrite process_batch_eq.
  destruct (first_failure' _ _); [done|].
  destruct (fold_min _ _); [|done]. by intros [= ->].
Qed.

(** ** What the loop does, said without the loop *)

Lemma first_missing_key_None d :
  first_missing_key d = None ↔
  is_Some (d !! "trace_id") ∧ is_Some (d !! "span_id") ∧
  is_Some (d !! "project_id").
Proof.
  unfold first_missing_key, required_keys.
  destruct (d !! "trace_id") as [t|] eqn:Ht, (d !! "span_id") as [i|] eqn:Hi,
    (d !! "project_id") as [p|] eqn:Hp; cbn;
    rewrite ?Ht, ?Hi, ?Hp; cbn;
    (split; [intros ?; simplify_eq; by eauto|]);
    try done; by intros ([??] & [??] & [??]).
Qed.

(** A usable message is one whose iteration does not raise. *)
Lemma is_usable_iff first_partition v :
  is_usable' first_partition v = true ↔ failure_of' first_partition v = None.
Proof.
  unfold is_usable, failure_of. rewrite verdict_of_eq.
  destruct (loads (bytes_of v)) as [[]|]; try done.
  destruct (rejected' first_partition v d); [done|]. cbn [orb].
  rewrite bool_decide_eq_true, first_missing_key_None.
  destruct (d !! "trace_id"), (d !! "span_id"), (d !! "project_id");
    (split; [try done; by intros ([??] & [??] & [??])|]); try done;
    intros _; by eauto.
Qed.

Lemma first_failure_usable first_partition vs :
  first_failure' first_partition vs = None ↔
  Forall (λ v, is_usable' first_partition v = true) vs.
Proof.
  unfold first_failure. induction vs as [|v vs IH]; [done|].
  cbn [omap list_omap]. rewrite Forall_cons, is_usable_iff.
  destruct (failure_of' first_partition v); simpl.
  - split; [done|by intros [? _]].
  - rewrite IH. split; [done|by intros [_ ?]].
Qed.

(** A usable message is dropped when the admission predicate matches its
    record, and gives a span otherwise. *)
Lemma verdict_of_usable first_partition v :
  is_usable' first_partition v = true →
  if is_rejected' first_partition v
  then verdict_of' first_partition v = Dropped
  else ∃ s, verdict_of' first_partition v = Kept s.
Proof.
  unfold is_usable, is_rejected. rewrite verdict_of_eq.
  destruct (loads (bytes_of v)) as [[]|]; try done.
  destruct (rejected' first_partition v d); [done|]. cbn [orb].
  rewrite bool_decide_eq_true, first_missing_key_None.
  intros ([t ->] & [i ->] & [p ->]). by eexists.
Qed.

(** The spans of a batch of usable messages: one for each message that the
    admission predicate does not match, in the order of the batch. *)
Lemma kept_of_usable first_partition vs :
  Forall (λ v, is_usable' first_partition v = true) vs →
  Forall2 (λ v s, verdict_of' first_partition v = Kept s)
    (filter (λ v, is_rejected' first_partition v = false) vs)
    (kept' first_partition vs).
Proof.
  unfold kept. induction 1 as [|v vs Hv _ IH]; [constructor|].
  cbn [omap list_omap]. rewrite filter_cons.
  apply verdict_of_usable in Hv. unfold kept_span at 1.
  destruct (is_rejected' first_partition v).
  - rewrite Hv, decide_False by done. exact IH.
  - destruct Hv as [s Hs]. rewrite Hs, decide_True by done. by constructor.
Qed.

(** A batch of usable messages, not empty, goes through. *)
Lemma process_batch_usable buffer first_partition values :
  Message.payload values ≠ [] →
  Forall (λ v, is_usable' first_partition v = true) (Message.payload values) →
  ∃ now,
    process_batch' buffer first_partition values =
      (process_spans buffer (kept' first_partition (Message.payload values)) now,
       Ok now) ∧
    now ∈ timestamp_of <$> Message.payload values ∧
    Forall (Z.le now) (timestamp_of <$> Message.payload values).
Proof.
  intros Hne Hall. rewrite process_batch_eq.
  apply first_failure_usable in Hall. rewrite Hall.
  destruct (Message.payload values) as [|v vs]; [done|]. rewrite fmap_cons.
  destruct (fold_min_nonempty (timestamp_of v) (timestamp_of <$> vs))
    as (now & -> & Hin & Hle). by exists now.
Qed.

(** A batch with a message that is not usable raises, and the buffer is left
    as it was. *)
Lemma process_batch_unusable buffer first_partition values :
  ¬ Forall (λ v, is_usable' first_partition v = true) (Message.payload values) →
  ∃ e, process_batch' buffer first_partition values = (buffer, Raise e).
Proof.
  intros Hn. rewrite process_batch_eq.
  destruct (first_failure' first_partition (Message.payload values)) eqn:Hf.
  - by eexists.
  - by apply first_failure_usable in Hf.
Qed.

(** C3: on a batch that is not empty and whose messages are all usable,
    [process_batch] calls [process_spans] with, and returns, a [now] that is
    the least logical timestamp of the messages of the batch: it is one of
    the timestamps and no timestamp of the batch is below it.  On any other
    batch that is not empty it raises, and nothing is passed on. *)
Theorem now_is_least_timestamp buffer first_partition v vs c ts :
  (Forall (λ v, is_usable' first_partition v = true) (v :: vs) →
   ∃ now spans,
     process_batch' buffer first_partition (Message.mk (v :: vs) c ts) =
       (process_spans buffer spans now, Ok now) ∧
     now ∈ timestamp_of <$> v :: vs ∧
     Forall (Z.le now) (timestamp_of <$> v :: vs)) ∧
  (¬ Forall (λ v, is_usable' first_partition v = true) (v :: vs) →
   ∃ e, process_batch' buffer first_partition (Message.mk (v :: vs) c ts) =
          (buffer, Raise e)).
Proof.
  split.
  - intros Hall.
    destruct (process_batch_usable buffer first_partition
                (Message.mk (v :: vs) c ts)) as (now & Heq & Hin & Hle);
      [done|done|].
    by exists now, (kept' first_partition (v :: vs)).
  - intros Hn. by apply process_batch_unusable.
Qed.

(** C9: on the empty batch the [assert] fails; on a batch with a message the
    loop, when it runs to its end, leaves a [min_timestamp] that is not
    [None], so [process_batch] never raises [AssertionError] there; and when
    every message of such a batch is dropped it still returns. *)
Theorem assert_fails_only_on_empty_batch buffer first_partition c ts :
  process_batch' buffer first_partition (Message.mk [] c ts) =
    (buffer, Raise AssertionError) ∧
  (∀ v vs,
     match run_loop loads loads_error killswitch_matches_context first_partition (v :: vs) with
     | Ok (min_timestamp, _) => is_Some min_timestamp
     | Raise e => is_assertion_error (Raise (A := Z) e) = false
     end ∧
     is_assertion_error
       (process_batch' buffer first_partition (Message.mk (v :: vs) c ts)).2 = false) ∧
  (∀ v vs,
     Forall (λ v, verdict_of' first_partition v = Dropped) (v :: vs) →
     ∃ now,
       process_batch' buffer first_partition (Message.mk (v :: vs) c ts) =
         (process_spans buffer [] now, Ok now)).
Proof.
  split; [done|]. split.
  - intros v vs. rewrite process_batch_eq, run_loop_eq. cbn [Message.payload].
    destruct (first_failure' _ _) as [e|] eqn:He.
    + apply first_failure_not_assertion in He. by destruct e.
    + rewrite fmap_cons.
      destruct (fold_min_nonempty (timestamp_of v) (timestamp_of <$> vs))
        as (now & -> & _). split; [by eexists|done].
  - intros v vs Hall. rewrite process_batch_eq. cbn [Message.payload].
    assert (omap (failure_of' first_partition) (v :: vs) = [] ∧
            kept' first_partition (v :: vs) = []) as [Hf Hk].
    { unfold kept. induction Hall as [|w ws Hw _ [IH1 IH2]]; [done|].
      cbn [omap list_omap]. unfold failure_of at 1, kept_span at 1.
      by rewrite Hw. }
    unfold first_failure. rewrite Hf, Hk, fmap_cons. simpl head.
    destruct (fold_min_nonempty (timestamp_of v) (timestamp_of <$> vs))
      as (now & -> & _). by exists now.
Qed.

(** C4: a message whose record the admission predicate matches is dropped
    without an exception: the iteration leaves [spans] as it was, and the
    batch is processed as the batch without that message would be, as far
    as the spans handed to [process_spans] and the exceptions go. *)
Theorem rejected_span_is_dropped buffer first_partition before value after c ts d :
  loads (bytes_of value) = Some (PyDict d) →
  rejected' first_partition value d = true →
  (∀ m spans, ∃ m',
     loop_body loads loads_error killswitch_matches_context first_partition (m, spans) value =
       Ok (m', spans)) ∧
  match first_failure' first_partition (before ++ after) with
  | Some e =>
      process_batch' buffer first_partition
        (Message.mk (before ++ value :: after) c ts) = (buffer, Raise e)
  | None =>
      ∃ now,
        process_batch' buffer first_partition
          (Message.mk (before ++ value :: after) c ts) =
          (process_spans buffer (kept' first_partition (before ++ after)) now,
           Ok now)
  end.
Proof.
  intros Hd Hr. pose proof (verdict_Dropped _ _ _ Hd Hr) as Hv. split.
  - intros m spans. rewrite loop_body_verdict, Hv. by eexists.
  - rewrite process_batch_eq. cbn [Message.payload].
    assert (first_failure' first_partition (before ++ value :: after) =
            first_failure' first_partition (before ++ after)) as ->.
    { rewrite !first_failure_app. destruct (first_failure' _ before); [done|].
      unfold first_failure. cbn [omap list_omap].
      unfold failure_of at 1. by rewrite Hv. }
    assert (kept' first_partition (before ++ value :: after) =
            kept' first_partition (before ++ after)) as ->.
    { rewrite !kept_app. f_equal. unfold kept. cbn [omap list_omap].
      unfold kept_span at 1. by rewrite Hv. }
    destruct (first_failure' _ _); [done|].
    destruct (before ++ value :: after) as [|w ws] eqn:Hl;
      [by destruct before|].
    rewrite fmap_cons.
    destruct (fold_min_nonempty (timestamp_of w) (timestamp_of <$> ws))
      as (now & -> & _). by exists now.
Qed.

Lemma kept_payloads first_partition vs spans :
  Forall2 (λ v s, verdict_of' first_partition v = Kept s) vs spans →
  Span.payload <$> spans = bytes_of <$> vs.
Proof.
  induction 1 as [|v s vs' ss Hv _ IH]; [done|].
  rewrite !fmap_cons, IH. f_equal.
  by apply verdict_Kept_inv in Hv as (d & t & i & p & _ & _ & _ & _ & _ & ->).
Qed.

(** C7: the spans handed to [process_spans] follow the order of the batch.
    On a batch of usable messages the messages that the admission predicate
    does not match, a subsequence of the batch, each give one span, and the
    spans are handed over in the order of these messages: the payloads of
    the spans are the payloads of these messages, in order. *)
Theorem spans_keep_batch_order buffer first_partition values :
  Message.payload values ≠ [] →
  Forall (λ v, is_usable' first_partition v = true) (Message.payload values) →
  ∃ now spans,
    process_batch' buffer first_partition values =
      (process_spans buffer spans now, Ok now) ∧
    filter (λ v, is_rejected' first_partition v = false) (Message.payload values)
      `sublist_of` Message.payload values ∧
    Span.payload <$> spans =
      bytes_of <$> filter (λ v, is_rejected' first_partition v = false)
                     (Message.payload values).
Proof.
  intros Hne Hall.
  destruct (process_batch_usable buffer first_partition values Hne Hall)
    as (now & Heq & _).
  eexists now, _. split_and!; [exact Heq|apply sublist_filter|].
  eapply kept_payloads, kept_of_usable, Hall.
Qed.

(** C8: on a batch of usable messages, every message that the admission
    predicate does not match gets its span, in order: the payload of the
    message decodes to a record; the span's segment flag is set exactly when
    the record has no [parent_span_id] (the key is missing or null) or its
    [is_remote] is true in the sense of [bool]; and the span's payload is the
    bytes of the message, as received. *)
Theorem span_flag_and_payload buffer first_partition values :
  Message.payload values ≠ [] →
  Forall (λ v, is_usable' first_partition v = true) (Message.payload values) →
  ∃ now spans,
    process_batch' buffer first_partition values =
      (process_spans buffer spans now, Ok now) ∧
    Forall2 (λ v s, ∃ d,
        loads (bytes_of v) = Some (PyDict d) ∧
        (Span.is_segment_span s = true ↔ parent_absent d ∨ marked_remote d) ∧
        Span.payload s = bytes_of v)
      (filter (λ v, is_rejected' first_partition v = false) (Message.payload values))
      spans.
Proof.
  intros Hne Hall.
  destruct (process_batch_usable buffer first_partition values Hne Hall)
    as (now & Heq & _).
  eexists now, _. split; [exact Heq|].
  eapply Forall2_impl; [apply kept_of_usable, Hall|].
  intros v s Hv.
  apply verdict_Kept_inv in Hv as (d & t & i & p & Hd & _ & _ & _ & _ & ->).
  exists d. split_and!; [done| |done].
  unfold span_of, parent_absent, marked_remote. cbn [Span.is_segment_span].
  rewrite orb_true_iff. split.
  - intros [Hp|Hr].
    + left. destruct (d !! "parent_span_id") as [[]|]; simplify_eq/=; auto.
    + right. destruct (d !! "is_remote") as [x|]; simplify_eq/=. by exists x.
  - intros [[->| ->]|(x & -> & Hx)]; auto.
Qed.

Lemma partition_id_of_length first_partition (c : list (Partition.t * Z)) :
  partition_id_of first_partition c =
    if decide (length c = 1)
    then default first_partition ((λ pi, Partition.index pi.1) <$> head c)
    else first_partition.
Proof. by destruct c as [|[p o] [|??]]. Qed.

(** C2, as the code has it: the shard is resolved message by message.  The
    span of a surviving message gets the index of the one partition of that
    message's committable, and the default shard (the index of the first
    assigned partition, or 0) when the committable does not have exactly one
    partition.  So when every message of the batch comes from the same single
    partition all spans are on it, and when no message has a single
    partition all spans are on the default shard. *)
Theorem shard_resolved_per_message buffer partitions values now :
  (process_batch' buffer (first_partition_of partitions) values).2 = Ok now →
  ∃ spans,
    (process_batch' buffer (first_partition_of partitions) values).1 =
      process_spans buffer spans now ∧
    Forall2 (λ v s, Span.partition s =
               match Message.committable v with
               | [(p, _)] => Partition.index p
               | _ => first_partition_of partitions
               end)
      (filter (survives' (first_partition_of partitions)) (Message.payload values))
      spans ∧
    (∀ p, Forall (λ v, ∃ off, Message.committable v = [(p, off)])
            (Message.payload values) →
          Forall (λ s, Span.partition s = Partition.index p) spans) ∧
    (Forall (λ v, length (Message.committable v) ≠ 1) (Message.payload values) →
     Forall (λ s, Span.partition s = first_partition_of partitions) spans).
Proof.
  intros H. apply process_batch_returns in H as (_ & _ & ->).
  eexists. split; [done|].
  set (fp := first_partition_of partitions).
  assert (∀ s, s ∈ kept' fp (Message.payload values) →
            ∃ v, v ∈ Message.payload values ∧
              Span.partition s = partition_id_of fp (Message.committable v))
    as Hspan.
  { intros s Hs. apply list_elem_of_omap in Hs as (v & Hin & Hs).
    unfold kept_span in Hs.
    destruct (verdict_of' fp v) as [| |s'] eqn:Hv; simplify_eq.
    apply verdict_Kept_inv in Hv as (d & t & i & p & _ & _ & _ & _ & _ & ->).
    by exists v. }
  split_and!.
  - eapply Forall2_impl; [apply kept_survivors|].
    intros v s Hv.
    by apply verdict_Kept_inv in Hv as (d & t & i & p & _ & _ & _ & _ & _ & ->).
  - intros p Hall. apply Forall_forall. intros s Hs.
    destruct (Hspan s Hs) as (v & Hin & ->).
    rewrite Forall_forall in Hall. by destruct (Hall v Hin) as [off ->].
  - intros Hall. apply Forall_forall. intros s Hs.
    destruct (Hspan s Hs) as (v & Hin & ->).
    rewrite Forall_forall in Hall. specialize (Hall v Hin).
    by destruct (Message.committable v) as [|[p o] [|??]].
Qed.

(** C5, as the code has it: when a payload of the batch is not valid JSON,
    or decodes to something that is not an object, or decodes to an object
    that the admission predicate does not match and that lacks one of
    [trace_id], [span_id], [project_id], then [process_batch] raises and
    [process_spans] is not called: the buffer is as it was. *)
Theorem undecodable_payload_aborts_batch buffer first_partition values value :
  value ∈ Message.payload values →
  loads (bytes_of value) = None ∨
  (∃ val, loads (bytes_of value) = Some val ∧ is_dict val = false) ∨
  (∃ d k, loads (bytes_of value) = Some (PyDict d) ∧
          rejected' first_partition value d = false ∧
          k ∈ ["trace_id"; "span_id"; "project_id"] ∧ d !! k = None) →
  ∃ e, process_batch' buffer first_partition values = (buffer, Raise e) ∧
       is_assertion_error (Raise (A := Z) e) = false.
Proof.
  intros Hin Hbad.
  assert (∃ e, failure_of' first_partition value = Some e) as [e He].
  { unfold failure_of. rewrite verdict_of_eq.
    destruct Hbad as [->|[(val & -> & Hval)|(d & k & -> & -> & Hk & Hnone)]].
    - by eexists.
    - destruct val; simplify_eq/=; by eexists.
    - assert (k = "trace_id" ∨ k = "span_id" ∨ k = "project_id") as Hk'
        by (rewrite !elem_of_cons, elem_of_nil in Hk; tauto).
      destruct Hk' as [->|[->| ->]]; rewrite Hnone;
        destruct (d !! "trace_id"); try destruct (d !! "span_id");
        by eexists. }
  destruct (first_failure_elem _ _ _ _ Hin He) as [e' He'].
  exists e'. rewrite process_batch_eq, He'. split; [done|].
  apply first_failure_not_assertion in He'. by destruct e'.
Qed.
End batch_facts.

(** ** [prepare_message] *)

(** C6: the logical timestamp of a message is [int] of the broker's
    timestamp when the message has one, and [int] of the wall clock only
    when it has none; the payload is passed through. *)
Theorem producer_timestamp_preferred (float datetime : Type)
    (int : float → Z) (datetime_timestamp : datetime → float)
    (time_time : float) (payload : KafkaPayload.t) c :
  (∀ ts, prepare_message float datetime int datetime_timestamp time_time
           (Message.mk payload c (Some ts)) =
         (int (datetime_timestamp ts), payload)) ∧
  prepare_message float datetime int datetime_timestamp time_time
    (Message.mk payload c None) = (int time_time, payload).
Proof. done. Qed.

(** ** The consumer at work *)

Example run_two_spans :
  ∃ sa sb, Demo.run 0 [Demo.msg_a; Demo.msg_b] = ([([sa; sb], 30%Z)], Ok 30%Z) ∧
    Span.span_id sa = PyStr "a" ∧ Span.span_id sb = PyStr "b" ∧
    Span.is_segment_span sa = true ∧ Span.is_segment_span sb = false.
Proof. do 2 eexists. split; [vm_compute; reflexivity|done]. Qed.

Example run_not_json :
  Demo.run 0 [Demo.msg_a; Demo.msg_x; Demo.msg_b] = ([], Raise JSONDecodeError).
Proof. vm_compute. reflexivity. Qed.

Example run_missing_key :
  Demo.run 0 [Demo.msg_a; Demo.msg_m] = ([], Raise (KeyError "span_id")).
Proof. vm_compute. reflexivity. Qed.

Example run_empty : Demo.run 0 [] = ([], Raise AssertionError).
Proof. vm_compute. reflexivity. Qed.

(** C2 fails as stated: a batch with one message from partition 1 and one
    from partition 2 does not come from a single partition, and yet its
    spans are put on shards 1 and 2, not on the default shard 0. *)
Lemma shard_by_batch_counterexample :
  (∀ p, ¬ Forall (λ v, ∃ off, Message.committable v = [(p, off)])
            [Demo.msg_a; Demo.msg_b']) ∧
  ∃ spans,
    Demo.run 0 [Demo.msg_a; Demo.msg_b'] = ([(spans, 10%Z)], Ok 10%Z) ∧
    Span.partition <$> spans = [1%Z; 2%Z] ∧
    ¬ Forall (λ s, Span.partition s = 0%Z) spans.
Proof.
  split.
  - intros p H. apply Forall_cons in H as [[o1 H1] H].
    apply Forall_cons in H as [[o2 H2] _].
    vm_compute in H1, H2. congruence.
  - eexists. split; [vm_compute; reflexivity|]. split; [done|].
    intros H. apply Forall_cons in H as [H _]. vm_compute in H. congruence.
Qed.

Lemma shard_resolved_per_message_witness :
  (Demo.run 1 [Demo.msg_a; Demo.msg_b']).2 = Ok 10%Z ∧
  ∃ spans,
    (Demo.run 1 [Demo.msg_a; Demo.msg_b']).1 = Demo.process_spans [] spans 10%Z ∧
    Forall2 (λ v s, Span.partition s =
               match Message.committable v with
               | [(p, _)] => Partition.index p
               | _ => 1%Z
               end)
      (filter (survives Demo.loads Demo.loads_error Demo.killswitch_matches_context 1)
         [Demo.msg_a; Demo.msg_b'])
      spans.
Proof.
  split; [vm_compute; reflexivity|].
  destruct (shard_resolved_per_message Demo.loads Demo.loads_error Demo.killswitch_matches_context
              Demo.SpansBuffer Demo.process_spans [] [(Demo.spans_topic 1, 0%Z)]
              (Demo.batch [Demo.msg_a; Demo.msg_b']) 10%Z)
    as (spans & H1 & H2 & _); [vm_compute; reflexivity|].
  exists spans. split; [exact H1|exact H2].
Defined.

Lemma rejected_span_is_dropped_witness :
  Demo.loads (bytes_of Demo.msg_k) = Some (PyDict Demo.record_k) ∧
  rejected Demo.killswitch_matches_context 0 Demo.msg_k Demo.record_k = true ∧
  ∃ now,
    Demo.run 0 ([Demo.msg_a] ++ Demo.msg_k :: [Demo.msg_b]) =
      (Demo.process_spans []
         (kept Demo.loads Demo.loads_error Demo.killswitch_matches_context 0
            ([Demo.msg_a] ++ [Demo.msg_b])) now,
       Ok now).
Proof.
  assert (Demo.loads (bytes_of Demo.msg_k) = Some (PyDict Demo.record_k)) as Hd
    by (vm_compute; reflexivity).
  assert (rejected Demo.killswitch_matches_context 0 Demo.msg_k Demo.record_k = true)
    as Hr by (vm_compute; reflexivity).
  split; [exact Hd|]. split; [exact Hr|].
  exact (proj2 (rejected_span_is_dropped Demo.loads Demo.loads_error Demo.killswitch_matches_context
                  Demo.SpansBuffer Demo.process_spans [] 0
                  [Demo.msg_a] Demo.msg_k [Demo.msg_b]
                  (mjoin (Message.committable <$>
                            [Demo.msg_a] ++ Demo.msg_k :: [Demo.msg_b]))
                  None Demo.record_k Hd Hr)).
Defined.

(** C5 fails as stated: the record [k] has no [span_id], but the admission
    predicate matches it, so the message is skipped: no exception is raised
    and the span of the other message of the batch is ingested. *)
Lemma missing_key_skipped_counterexample :
  Demo.loads (bytes_of Demo.msg_k) = Some (PyDict Demo.record_k) ∧
  Demo.record_k !! "span_id" = None ∧
  ∃ sa, Demo.run 0 [Demo.msg_k; Demo.msg_a] = ([([sa], 20%Z)], Ok 20%Z) ∧
        Span.payload sa = Demo.payload_a.
Proof.
  split; [vm_compute; reflexivity|]. split; [vm_compute; reflexivity|].
  eexists. split; vm_compute; reflexivity.
Qed.

Lemma undecodable_payload_aborts_batch_witness :
  Demo.msg_m ∈ [Demo.msg_a; Demo.msg_m] ∧
  Demo.loads (bytes_of Demo.msg_m) = Some (PyDict Demo.record_m) ∧
  rejected Demo.killswitch_matches_context 0 Demo.msg_m Demo.record_m = false ∧
  Demo.record_m !! "span_id" = None ∧
  ∃ e, Demo.run 0 [Demo.msg_a; Demo.msg_m] = ([], Raise e) ∧
       is_assertion_error (Raise (A := Z) e) = false.
Proof.
  assert (Demo.msg_m ∈ [Demo.msg_a; Demo.msg_m]) as Hin by (right; left).
  assert (Demo.loads (bytes_of Demo.msg_m) = Some (PyDict Demo.record_m)) as Hd
    by (vm_compute; reflexivity).
  assert (rejected Demo.killswitch_matches_context 0 Demo.msg_m Demo.record_m = false)
    as Hr by (vm_compute; reflexivity).
  assert (Demo.record_m !! "span_id" = None) as Hk by (vm_compute; reflexivity).
  split_and!; [exact Hin|exact Hd|exact Hr|exact Hk|].
  apply (undecodable_payload_aborts_batch Demo.loads Demo.loads_error Demo.killswitch_matches_context
           Demo.SpansBuffer Demo.process_spans [] 0
           (Demo.batch [Demo.msg_a; Demo.msg_m]) Demo.msg_m Hin).
  right; right. exists Demo.record_m, "span_id".
  split_and!; [exact Hd|exact Hr|right; left|exact Hk].
Defined.

Lemma now_is_least_timestamp_witness :
  Forall (λ v, is_usable Demo.loads Demo.killswitch_matches_context 0 v = true)
    [Demo.msg_a; Demo.msg_k; Demo.msg_b] ∧
  ∃ now spans,
    Demo.run 0 [Demo.msg_a; Demo.msg_k; Demo.msg_b] =
      (Demo.process_spans [] spans now, Ok now) ∧
    now ∈ [30; 20; 40]%Z ∧ Forall (Z.le now) [30; 20; 40]%Z ∧ now = 20%Z.
Proof.
  assert (Forall (λ v, is_usable Demo.loads Demo.killswitch_matches_context 0 v
                       = true) [Demo.msg_a; Demo.msg_k; Demo.msg_b]) as Hall
    by (repeat constructor).
  split; [exact Hall|].
  destruct (proj1 (now_is_least_timestamp Demo.loads Demo.loads_error
                     Demo.killswitch_matches_context Demo.SpansBuffer
                     Demo.process_spans [] 0 Demo.msg_a [Demo.msg_k; Demo.msg_b]
                     (mjoin (Message.committable <$>
                               [Demo.msg_a; Demo.msg_k; Demo.msg_b]))
                     None) Hall) as (now & spans & Heq & Hin & Hle).
  exists now, spans. split_and!; [exact Heq|exact Hin|exact Hle|].
  pose proof Heq as Hrun. vm_compute in Hrun.
  injection Hrun as _ Hnow. symmetry. exact Hnow.
Defined.

Lemma spans_keep_batch_order_witness :
  Message.payload (Demo.batch [Demo.msg_a; Demo.msg_k; Demo.msg_b; Demo.msg_r]) ≠ [] ∧
  Forall (λ v, is_usable Demo.loads Demo.killswitch_matches_context 0 v = true)
    [Demo.msg_a; Demo.msg_k; Demo.msg_b; Demo.msg_r] ∧
  ∃ now spans,
    Demo.run 0 [Demo.msg_a; Demo.msg_k; Demo.msg_b; Demo.msg_r] =
      (Demo.process_spans [] spans now, Ok now) ∧
    [Demo.msg_a; Demo.msg_b; Demo.msg_r]
      `sublist_of` [Demo.msg_a; Demo.msg_k; Demo.msg_b; Demo.msg_r] ∧
    Span.payload <$> spans = [Demo.payload_a; Demo.payload_b; Demo.payload_r].
Proof.
  assert (Message.payload
            (Demo.batch [Demo.msg_a; Demo.msg_k; Demo.msg_b; Demo.msg_r]) ≠ [])
    as Hne by discriminate.
  assert (Forall (λ v, is_usable Demo.loads Demo.killswitch_matches_context 0 v
                       = true)
            [Demo.msg_a; Demo.msg_k; Demo.msg_b; Demo.msg_r]) as Hall
    by (repeat constructor).
  split; [exact Hne|]. split; [exact Hall|].
  exact (spans_keep_batch_order Demo.loads Demo.loads_error
           Demo.killswitch_matches_context Demo.SpansBuffer Demo.process_spans
           [] 0 (Demo.batch [Demo.msg_a; Demo.msg_k; Demo.msg_b; Demo.msg_r])
           Hne Hall).
Defined.

Example run_keeps_order :
  ∃ spans,
    Demo.run 0 [Demo.msg_a; Demo.msg_k; Demo.msg_b; Demo.msg_r] =
      ([(spans, 20%Z)], Ok 20%Z) ∧
    Span.payload <$> spans = [Demo.payload_a; Demo.payload_b; Demo.payload_r] ∧
    Span.is_segment_span <$> spans = [true; false; true].
Proof. eexists. split_and!; vm_compute; reflexivity. Qed.

Lemma span_flag_and_payload_witness :
  Message.payload (Demo.batch [Demo.msg_a; Demo.msg_k; Demo.msg_b; Demo.msg_r]) ≠ [] ∧
  Forall (λ v, is_usable Demo.loads Demo.killswitch_matches_context 0 v = true)
    [Demo.msg_a; Demo.msg_k; Demo.msg_b; Demo.msg_r] ∧
  ∃ now spans,
    Demo.run 0 [Demo.msg_a; Demo.msg_k; Demo.msg_b; Demo.msg_r] =
      (Demo.process_spans [] spans now, Ok now) ∧
    Forall2 (λ v s, ∃ d,
        Demo.loads (bytes_of v) = Some (PyDict d) ∧
        (Span.is_segment_span s = true ↔ parent_absent d ∨ marked_remote d) ∧
        Span.payload s = bytes_of v)
      [Demo.msg_a; Demo.msg_b; Demo.msg_r] spans ∧
    Span.is_segment_span <$> spans = [true; false; true].
Proof.
  assert (Message.payload
            (Demo.batch [Demo.msg_a; Demo.msg_k; Demo.msg_b; Demo.msg_r]) ≠ [])
    as Hne by discriminate.
  assert (Forall (λ v, is_usable Demo.loads Demo.killswitch_matches_context 0 v
                       = true)
            [Demo.msg_a; Demo.msg_k; Demo.msg_b; Demo.msg_r]) as Hall
    by (repeat constructor).
  split; [exact Hne|]. split; [exact Hall|].
  destruct (span_flag_and_payload Demo.loads Demo.loads_error
              Demo.killswitch_matches_context Demo.SpansBuffer Demo.process_spans
              [] 0 (Demo.batch [Demo.msg_a; Demo.msg_k; Demo.msg_b; Demo.msg_r])
              Hne Hall) as (now & spans & Heq & HF).
  exists now, spans. split; [exact Heq|]. split; [exact HF|].
  pose proof Heq as Hrun. vm_compute in Hrun.
  injection Hrun as Hspans _. rewrite <- Hspans. reflexivity.
Defined.

(** With every message of the batch rejected, the buffer is still called,
    with no span and the least timestamp. *)
Example run_all_rejected :
  Demo.run 0 [Demo.value 30 Demo.payload_k [(Demo.spans_topic 1, 6%Z)]; Demo.msg_k] =
    ([([], 20%Z)], Ok 20%Z).
Proof. vm_compute. reflexivity. Qed.

(** ** The buffer engine: when a segment is flushed *)

Module BufferEngineFacts.
Import BufferEngine.
Local Open Scope Z_scope.

Lemma clocked_init shards : clocked (init shards).
Proof. intros sh tr seg H. simpl in H. by rewrite lookup_empty in H. Qed.

Lemma ingest_span_clocked shards wms segs sh now w s :
  sh ∈ shards → wms !! sh = Some w → now ≤ w →
  clocked_at shards wms segs →
  clocked_at shards wms (ingest_span sh now segs s).
Proof.
  intros Hsh Hw Hnow Hc sh' tr seg. unfold ingest_span.
  destruct (segs !! (sh, trace_id s)) as [old|] eqn:Hold.
  - destruct (decide ((sh, trace_id s) = (sh', tr))) as [[= <- <-]|Hne].
    + rewrite lookup_insert_eq. intros [= <-]. split; [done|].
      exists w. split; [done|]. simpl.
      destruct (Hc _ _ _ Hold) as (_ & w0 & Hw0 & Hle). simplify_eq. lia.
    + rewrite lookup_insert_ne by done. apply Hc.
  - destruct (decide ((sh, trace_id s) = (sh', tr))) as [[= <- <-]|Hne].
    + rewrite lookup_insert_eq. intros [= <-]. split; [done|].
      exists w. by split.
    + rewrite lookup_insert_ne by done. apply Hc.
Qed.

Lemma ingest_clocked e sh ss now : clocked e → clocked (ingest e sh ss now).
Proof.
  intros Hc. unfold ingest. destruct (decide (sh ∈ assigned_shards e)) as [Hsh|]; [|done].
  set (w' := advance (watermarks e !! sh) now).
  set (wms := <[sh := w']> (watermarks e)).
  assert (clocked_at (assigned_shards e) wms (segments e)) as H0.
  { intros sh' tr seg Hseg. destruct (Hc _ _ _ Hseg) as (Hin & w & Hw & Hle).
    split; [done|]. subst wms. destruct (decide (sh = sh')) as [<-|Hne].
    - rewrite lookup_insert_eq. exists w'. split; [done|].
      subst w'. rewrite Hw. simpl. lia.
    - rewrite lookup_insert_ne by done. by exists w. }
  assert (now ≤ w') as Hnow.
  { subst w'. destruct (watermarks e !! sh); simpl; lia. }
  assert (wms !! sh = Some w') as Hw' by (subst wms; apply lookup_insert_eq).
  clearbody wms w'.
  assert (clocked_at (assigned_shards e) wms
            (foldl (ingest_span sh now) (segments e) ss)) as H.
  { revert H0. generalize (segments e). induction ss as [|s ss IH]; intros segs H0.
    - done.
    - simpl. apply IH. by eapply ingest_span_clocked. }
  exact H.
Qed.

Lemma take_flushable_clocked e sh watermark :
  clocked e → clocked (take_flushable e sh watermark).2.
Proof.
  intros Hc. unfold take_flushable.
  destruct (decide (sh ∈ assigned_shards e)); [|done].
  destruct (watermarks e !! sh) as [w|]; [|done].
  intros sh' tr seg. simpl. rewrite map_lookup_filter_Some.
  intros [H _]. exact (Hc _ _ _ H).
Qed.

(** Every state the engine can reach keeps the watermark of a shard at or
    above the [last_update] of the shard's segments. *)
Lemma reachable_clocked e : reachable e → clocked e.
Proof.
  induction 1 as [shards|e sh ss now _ IH|e sh watermark _ IH].
  - apply clocked_init.
  - by apply ingest_clocked.
  - by apply take_flushable_clocked.
Qed.

(** The tracked watermark only moves forward. *)
Lemma ingest_watermark_monotone e sh ss now w :
  watermarks e !! sh = Some w →
  ∃ w', watermarks (ingest e sh ss now) !! sh = Some w' ∧ w ≤ w'.
Proof.
  intros Hw. unfold ingest. destruct (decide (sh ∈ assigned_shards e)).
  - simpl. rewrite lookup_insert_eq, Hw. eexists. split; [done|]. simpl. lia.
  - exists w. split; [done|lia].
Qed.

(** An ingest call without spans still moves the shard's clock. *)
Lemma ingest_nothing_advances e sh now :
  sh ∈ assigned_shards e →
  segments (ingest e sh [] now) = segments e ∧
  ∃ w', watermarks (ingest e sh [] now) !! sh = Some w' ∧ now ≤ w'.
Proof.
  intros Hsh. unfold ingest. rewrite decide_True by done. simpl.
  split; [done|]. rewrite lookup_insert_eq. eexists. split; [done|].
  destruct (watermarks e !! sh); simpl; lia.
Qed.

(** What [take_flushable] returns was in the engine, on the shard asked for. *)
Lemma take_flushable_returns_segments e sh watermark k seg :
  (k, seg) ∈ (take_flushable e sh watermark).1 →
  segments e !! k = Some seg ∧ k.1 = sh.
Proof.
  unfold take_flushable.
  destruct (decide (sh ∈ assigned_shards e)); [|by intros ?%elem_of_nil].
  destruct (watermarks e !! sh) as [w|]; [|by intros ?%elem_of_nil].
  simpl. rewrite elem_of_map_to_list, map_lookup_filter_Some.
  by intros [H [H' _]].
Qed.

(** C1: in every state the engine can reach, a call of [take_flushable] on
    the shard of a segment returns that segment exactly when the shard's
    tracked watermark minus the segment's [last_update] is at least 120;
    below 120 the segment stays in the engine as it is, and from 120 on the
    call that finds it so removes it. *)
Theorem take_flushable_iff e sh watermark tr seg :
  reachable e →
  segments e !! (sh, tr) = Some seg →
  ∃ w, watermarks e !! sh = Some w ∧
    ((sh, tr, seg) ∈ (take_flushable e sh watermark).1 ↔
       120 ≤ w - last_update seg) ∧
    (w - last_update seg < 120 →
       segments (take_flushable e sh watermark).2 !! (sh, tr) = Some seg) ∧
    (120 ≤ w - last_update seg →
       segments (take_flushable e sh watermark).2 !! (sh, tr) = None).
Proof.
  intros Hr Hseg.
  destruct (reachable_clocked e Hr sh tr seg Hseg) as (Hin & w & Hw & _).
  exists w. split; [done|]. unfold take_flushable.
  destruct (decide (sh ∈ assigned_shards e)); [|done]. rewrite Hw. simpl.
  rewrite elem_of_map_to_list, map_lookup_filter_Some.
  unfold flushable, flush_threshold. simpl. split_and!.
  - split; [by intros (_ & _ & H)|by intros H].
  - intros Hlt. apply map_lookup_filter_Some. split; [done|]. simpl. lia.
  - intros Hge. apply map_lookup_filter_None. right.
    intros seg' Hseg'. simplify_eq. simpl. intros Hn. by apply Hn.
Qed.

Example segment_not_flushable_at_30 :
  segments engine_30 !! (0, "trace1") = Some segment_1 ∧
  take_flushable engine_30 0 30 = ([], engine_30).
Proof. split; vm_compute; reflexivity. Qed.

Example segment_flushed_at_151 :
  (take_flushable engine_151 0 151).1 = [(0, "trace1", segment_1)] ∧
  segments (take_flushable engine_151 0 151).2 !! (0, "trace1") = None ∧
  (take_flushable (take_flushable engine_151 0 151).2 0 151).1 = [].
Proof. split_and!; vm_compute; reflexivity. Qed.

Lemma take_flushable_iff_witness :
  reachable engine_151 ∧
  segments engine_151 !! (0, "trace1") = Some segment_1 ∧
  ∃ w, watermarks engine_151 !! 0 = Some w ∧
    ((0, "trace1", segment_1) ∈ (take_flushable engine_151 0 0).1 ↔
       120 ≤ w - last_update segment_1).
Proof.
  assert (reachable engine_151) as Hr
    by (apply reach_ingest, reach_ingest, reach_init).
  assert (segments engine_151 !! (0, "trace1") = Some segment_1) as Hs
    by (vm_compute; reflexivity).
  split; [exact Hr|]. split; [exact Hs|].
  destruct (take_flushable_iff engine_151 0 0 "trace1" segment_1 Hr Hs)
    as (w & Hw & Hiff & _).
  exists w. split; [exact Hw|exact Hiff].
Defined.
End BufferEngineFacts.

(** ** A rejected span and the clock of the shard *)

Section engine_clock.
Context {D : Type}.
Variable loads : list Byte.byte → option pyval.
Variable loads_error : list Byte.byte → decode_failure.
Variable killswitch_matches_context : string → KillswitchContext.t → bool.
Variable stored : Span.t → BufferEngine.Span.

Implicit Types (e : BufferEngine.t) (sh now : Z).







End engine_clock.


(** With every message of the batch rejected, the engine keeps its segments
    and its clock is at the least timestamp. *)
Example engine_clock_moves_without_spans :
  ∃ e,
    process_batch Demo.loads Demo.loads_error Demo.killswitch_matches_context
      BufferEngine.t (EngineBuffer.process_spans Scenarios.stored)
      (BufferEngine.init {[1%Z]}) 0
      (Demo.batch [Demo.value 30 Demo.payload_k [(Demo.spans_topic 1, 6%Z)];
                   Demo.msg_k]) = (e, Ok 20%Z) ∧
    BufferEngine.segments e = ∅ ∧
    BufferEngine.watermarks e !! 1%Z = Some 20%Z.
Proof. eexists. split_and!; vm_compute; reflexivity. Qed.

(** ** More on [process_batch]: exceptions, composition, accounting *)

Lemma foldl_min_min a b ts :
  foldl Z.min (Z.min a b) ts = Z.min a (foldl Z.min b ts).
Proof.
  revert b. induction ts as [|t ts IH]; intros b; simpl; [done|].
  rewrite <- IH. f_equal. lia.
Qed.

(** The least timestamp of two runs of messages put end to end. *)
Lemma fold_min_app ts us n1 n2 :
  fold_min None ts = Some n1 → fold_min None us = Some n2 →
  fold_min None (ts ++ us) = Some (Z.min n1 n2).
Proof.
  unfold fold_min. rewrite foldl_app. intros -> H2.
  destruct us as [|u us]; [done|]. simpl in *.
  rewrite !fold_min_Some in *. simplify_eq. by rewrite foldl_min_min.
Qed.

(** The least timestamp does not depend on the order of the messages. *)
Lemma fold_min_perm ts us n :
  ts ≡ₚ us → fold_min None ts = Some n → fold_min None us = Some n.
Proof.
  intros Hp Hn. destruct ts as [|t ts]; [done|].
  destruct us as [|u us]; [by apply Permutation_nil_r in Hp|].
  destruct (fold_min_nonempty t ts) as (n1 & H1 & Hin1 & Hle1).
  destruct (fold_min_nonempty u us) as (n2 & H2 & Hin2 & Hle2).
  rewrite H2. f_equal. rewrite Hn in H1. injection H1 as ->.
  rewrite Forall_forall in Hle1, Hle2.
  assert (n1 ≤ n2)%Z by (apply Hle1; by rewrite Hp).
  assert (n2 ≤ n1)%Z by (apply Hle2; by rewrite <- Hp).
  lia.
Qed.

Section more_batch_facts.
Context {D : Type}.
Variable loads : list Byte.byte → option pyval.
Variable loads_error : list Byte.byte → decode_failure.
Variable killswitch_matches_context : string → KillswitchContext.t → bool.
Variable SpansBuffer : Type.
Variable process_spans : SpansBuffer → list Span.t → Z → SpansBuffer.

Implicit Types (value v : Message.t D (Z * KafkaPayload.t)).
Implicit Types (vs ws before after : list (Message.t D (Z * KafkaPayload.t))).
Implicit Types (values : Message.t D (list (Message.t D (Z * KafkaPayload.t)))).
Implicit Types (buffer : SpansBuffer) (d : gmap string pyval).

Local Abbreviation body := (loop_body loads loads_error killswitch_matches_context).
Local Abbreviation verdict_of' := (verdict_of loads loads_error killswitch_matches_context).
Local Abbreviation kept_span' := (kept_span loads loads_error killswitch_matches_context).
Local Abbreviation failure_of' := (failure_of loads loads_error killswitch_matches_context).
Local Abbreviation rejected' := (rejected killswitch_matches_context).
Local Abbreviation is_rejected' := (is_rejected loads killswitch_matches_context).
Local Abbreviation is_usable' := (is_usable loads killswitch_matches_context).
Local Abbreviation first_failure' := (first_failure loads loads_error killswitch_matches_context).
Local Abbreviation kept' := (kept loads loads_error killswitch_matches_context).
Local Abbreviation process_batch' :=
  (process_batch loads loads_error killswitch_matches_context SpansBuffer process_spans).

(** An iteration that ends normally is one whose message does not fail. *)
Lemma loop_body_ok_iff first_partition v :
  (∃ st, body first_partition (None, []) v = Ok st) ↔
  failure_of' first_partition v = None.
Proof.
  unfold failure_of. rewrite loop_body_verdict.
  destruct (verdict_of' first_partition v); split; try done; try by eexists.
  by intros [st ?].
Qed.

Lemma first_failure_None first_partition vs :
  first_failure' first_partition vs = None ↔
  Forall (λ v, failure_of' first_partition v = None) vs.
Proof.
  unfold first_failure. induction vs as [|v vs IH]; [done|].
  cbn [omap list_omap]. rewrite Forall_cons.
  destruct (failure_of' first_partition v); simpl.
  - split; [done|by intros [? _]].
  - rewrite IH. split; [done|by intros [_ ?]].
Qed.

Lemma first_failure_at first_partition before v after e :
  Forall (λ v, ∃ st, body first_partition (None, []) v = Ok st) before →
  failure_of' first_partition v = Some e →
  first_failure' first_partition (before ++ v :: after) = Some e.
Proof.
  intros Hb He. rewrite first_failure_app.
  assert (first_failure' first_partition before = None) as ->.
  { apply first_failure_None. eapply Forall_impl; [exact Hb|].
    intros w Hw. by apply loop_body_ok_iff. }
  unfold first_failure. cbn [omap list_omap]. by rewrite He.
Qed.

(** X1: the loop stops at the first payload it cannot use.  When the
    messages before have gone through their iteration, a payload that
    [rapidjson.loads] does not take makes [process_batch] raise what
    [rapidjson.loads] raises, [JSONDecodeError] for a text that is not JSON
    and [UnicodeDecodeError] for a string that is not UTF-8, and a payload
    that is JSON but not an object makes it raise [AttributeError]; the
    buffer is left alone and the messages after have no say. *)
Theorem first_bad_payload_decides buffer first_partition before value after c ts :
  Forall (λ v, ∃ st, body first_partition (None, []) v = Ok st) before →
  (loads (bytes_of value) = None →
   process_batch' buffer first_partition
     (Message.mk (before ++ value :: after) c ts) =
     (buffer,
      Raise (match loads_error (bytes_of value) with
             | NotJSON => JSONDecodeError
             | NotUTF8 => UnicodeDecodeError
             end))) ∧
  (∀ val, loads (bytes_of value) = Some val → is_dict val = false →
   process_batch' buffer first_partition
     (Message.mk (before ++ value :: after) c ts) =
     (buffer, Raise AttributeError)).
Proof.
  intros Hb. split.
  - intros Hl. rewrite process_batch_eq. cbn [Message.payload].
    erewrite first_failure_at; [done|done|].
    unfold failure_of. by rewrite verdict_of_eq, Hl.
  - intros val Hl Hv. rewrite process_batch_eq. cbn [Message.payload].
    erewrite first_failure_at; [done|done|].
    unfold failure_of. rewrite verdict_of_eq, Hl. by destruct val.
Qed.

(** X2: a record that the admission predicate lets through and that lacks
    required keys raises [KeyError] for the first one missing in the order
    [trace_id], [span_id], [project_id], whatever else is missing. *)
Theorem key_error_names_first_missing_key
    buffer first_partition before value after c ts d k :
  Forall (λ v, ∃ st, body first_partition (None, []) v = Ok st) before →
  loads (bytes_of value) = Some (PyDict d) →
  rejected' first_partition value d = false →
  first_missing_key d = Some k →
  process_batch' buffer first_partition
    (Message.mk (before ++ value :: after) c ts) =
    (buffer, Raise (KeyError k)).
Proof.
  intros Hb Hl Hr Hk. rewrite process_batch_eq. cbn [Message.payload].
  erewrite first_failure_at; [done|done|].
  unfold failure_of. rewrite verdict_of_eq, Hl, Hr.
  unfold first_missing_key, required_keys in Hk. cbn in Hk.
  repeat case_decide; simplify_eq/=;
    repeat match goal with H : _ !! _ = None |- _ => rewrite H end;
    repeat match goal with
           | H : ?x ≠ None |- _ => destruct x eqn:?; [clear H|done]
           end; done.
Qed.

(** X3: two batches put end to end.  When each of them goes through on its
    own, so does the joint batch: the buffer gets the spans of the first
    followed by the spans of the second, in one call, under the smaller of
    the two [now]. *)
Theorem process_batch_app buffer first_partition vs ws c1 t1 c2 t2 c t n1 n2 :
  (process_batch' buffer first_partition (Message.mk vs c1 t1)).2 = Ok n1 →
  (process_batch' buffer first_partition (Message.mk ws c2 t2)).2 = Ok n2 →
  ∃ spans1 spans2,
    (process_batch' buffer first_partition (Message.mk vs c1 t1)).1 =
      process_spans buffer spans1 n1 ∧
    (process_batch' buffer first_partition (Message.mk ws c2 t2)).1 =
      process_spans buffer spans2 n2 ∧
    process_batch' buffer first_partition (Message.mk (vs ++ ws) c t) =
      (process_spans buffer (spans1 ++ spans2) (Z.min n1 n2), Ok (Z.min n1 n2)).
Proof.
  intros H1 H2.
  apply process_batch_returns in H1 as (Hf1 & Hm1 & ->).
  apply process_batch_returns in H2 as (Hf2 & Hm2 & ->).
  cbn [Message.payload] in *. eexists _, _. split_and!; [done|done|].
  rewrite process_batch_eq. cbn [Message.payload].
  rewrite first_failure_app, Hf1, Hf2, fmap_app.
  by rewrite (fold_min_app _ _ _ _ Hm1 Hm2), kept_app.
Qed.

(** A message that goes through its iteration is either left out at the
    [continue] or turned into a span, never both. *)
Lemma verdict_of_is_rejected first_partition v :
  match verdict_of' first_partition v with
  | Fails _ => True
  | Dropped => is_rejected' first_partition v = true
  | Kept _ => is_rejected' first_partition v = false
  end.
Proof.
  rewrite verdict_of_eq. unfold is_rejected.
  destruct (loads (bytes_of v)) as [[]|]; try done.
  destruct (rejected' first_partition v _); [done|].
  by repeat case_match.
Qed.

(** X4: the order of the messages has no bearing on [now].  A batch that
    goes through still does so with its messages in any other order, with
    the same [now], and with the same spans up to their order. *)
Theorem process_batch_permutation buffer first_partition vs ws c1 t1 c2 t2 now :
  vs ≡ₚ ws →
  (process_batch' buffer first_partition (Message.mk vs c1 t1)).2 = Ok now →
  ∃ spans1 spans2,
    (process_batch' buffer first_partition (Message.mk vs c1 t1)).1 =
      process_spans buffer spans1 now ∧
    process_batch' buffer first_partition (Message.mk ws c2 t2) =
      (process_spans buffer spans2 now, Ok now) ∧
    spans1 ≡ₚ spans2.
Proof.
  intros Hp H. apply process_batch_returns in H as (Hf & Hm & ->).
  cbn [Message.payload] in *. eexists _, _. split_and!; [done| |].
  - rewrite process_batch_eq. cbn [Message.payload].
    assert (first_failure' first_partition ws = None) as ->.
    { apply first_failure_None. rewrite <- Hp. by apply first_failure_None. }
    rewrite (fold_min_perm (timestamp_of <$> vs) (timestamp_of <$> ws) now);
      [done|by rewrite Hp|done].
  - unfold kept. by rewrite Hp.
Qed.

(** X5: every message of a batch that goes through is accounted for: it
    either gave one span to the buffer or was left out by the admission
    predicate.  The spans and the rejected messages add up to the batch. *)
Theorem spans_and_rejections_add_up buffer first_partition values now :
  (process_batch' buffer first_partition values).2 = Ok now →
  ∃ spans,
    (process_batch' buffer first_partition values).1 =
      process_spans buffer spans now ∧
    length spans +
      length (filter (λ v, is_rejected' first_partition v = true)
                (Message.payload values)) =
    length (Message.payload values).
Proof.
  intros H. apply process_batch_returns in H as (Hf & _ & ->).
  eexists. split; [done|]. apply first_failure_None in Hf.
  unfold kept. induction Hf as [|v vs Hv _ IH]; [done|].
  cbn [omap list_omap]. rewrite filter_cons.
  pose proof (verdict_of_is_rejected first_partition v) as Hrej.
  unfold failure_of in Hv. unfold kept_span at 1.
  destruct (verdict_of' first_partition v); [done| |].
  - rewrite decide_True by done. simpl. lia.
  - rewrite decide_False by (by rewrite Hrej). simpl. lia.
Qed.

(** X6: with no message of the batch matched by the admission predicate, a
    batch that goes through hands every payload to the buffer, one span per
    message and in the order of the batch. *)
Theorem nothing_lost_without_rejection buffer first_partition values now :
  Forall (λ v, is_rejected' first_partition v = false) (Message.payload values) →
  (process_batch' buffer first_partition values).2 = Ok now →
  ∃ spans,
    (process_batch' buffer first_partition values).1 =
      process_spans buffer spans now ∧
    Span.payload <$> spans = bytes_of <$> Message.payload values.
Proof.
  intros Hall H. apply process_batch_returns in H as (Hf & _ & ->).
  eexists. split; [done|]. apply first_failure_None in Hf.
  unfold kept. induction Hall as [|v vs Hv Hall IH]; [done|].
  apply Forall_cons in Hf as [Hfv Hf].
  cbn [omap list_omap]. rewrite fmap_cons.
  pose proof (verdict_of_is_rejected first_partition v) as Hrej.
  unfold failure_of in Hfv. unfold kept_span at 1.
  destruct (verdict_of' first_partition v) as [| |s] eqn:Hver; [done| |].
  - congruence.
  - rewrite fmap_cons, (IH Hf). f_equal.
    by apply verdict_Kept_inv in Hver as (d & t & i & p & _ & _ & _ & _ & _ & ->).
Qed.

(** X7: no span reaches the buffer without having passed the admission
    predicate: the predicate was asked about the span's own project, trace
    and shard, under the name [spans.drop-in-buffer], and did not match. *)
Theorem ingested_spans_passed_killswitch buffer first_partition values now :
  (process_batch' buffer first_partition values).2 = Ok now →
  ∃ spans,
    (process_batch' buffer first_partition values).1 =
      process_spans buffer spans now ∧
    Forall (λ s, ∃ org,
        killswitch_matches_context "spans.drop-in-buffer"
          (KillswitchContext.mk org (Span.project_id s) (Span.trace_id s)
             (Span.partition s)) = false) spans.
Proof.
  intros H. apply process_batch_returns in H as (_ & _ & ->).
  eexists. split; [done|]. apply Forall_forall. intros s Hs.
  apply list_elem_of_omap in Hs as (value & _ & Hs).
  unfold kept_span in Hs.
  destruct (verdict_of' first_partition value) as [| |s'] eqn:Hv; simplify_eq.
  apply verdict_Kept_inv in Hv as (d & t & i & p & _ & Hr & Ht & _ & Hp & ->).
  unfold rejected in Hr. rewrite Ht, Hp in Hr. by eexists.
Qed.

(** X8: the fields of a span are the fields of the record of its own
    message.  On a batch of usable messages, each message that the admission
    predicate does not match gives, in order, a span that carries the
    message's bytes and whose [trace_id], [span_id] and [project_id] are the
    values of the message's record under these keys, and whose
    [parent_span_id] is the record's value, or [None] when the record has
    none. *)
Theorem span_fields_from_record buffer first_partition values :
  Message.payload values ≠ [] →
  Forall (λ v, is_usable' first_partition v = true) (Message.payload values) →
  ∃ now spans,
    process_batch' buffer first_partition values =
      (process_spans buffer spans now, Ok now) ∧
    Forall2 (λ v s, ∃ d,
        loads (bytes_of v) = Some (PyDict d) ∧
        Span.payload s = bytes_of v ∧
        d !! "trace_id" = Some (Span.trace_id s) ∧
        d !! "span_id" = Some (Span.span_id s) ∧
        d !! "project_id" = Some (Span.project_id s) ∧
        Span.parent_span_id s = default PyNone (d !! "parent_span_id"))
      (filter (λ v, is_rejected' first_partition v = false) (Message.payload values))
      spans.
Proof.
  intros Hne Hall.
  destruct (process_batch_usable loads loads_error killswitch_matches_context
              SpansBuffer process_spans buffer first_partition values Hne Hall)
    as (now & Heq & _).
  eexists now, _. split; [exact Heq|].
  eapply Forall2_impl; [apply kept_of_usable, Hall|].
  intros v s Hv.
  apply verdict_Kept_inv in Hv as (d & t & i & p & Hd & _ & Ht & Hi & Hp & ->).
  by exists d.
Qed.

Lemma first_partition_of_head (partitions : list (Partition.t * Z)) :
  first_partition_of partitions = default 0%Z (head (assigned_shards_of partitions)).
Proof. by destruct partitions as [|[p o] ?]. Qed.

(** X9: spans stay on the shards of the consumer.  When the consumer has
    partitions, and the messages that come from a single partition come
    from one of them, every span handed to the buffer, ones on the default
    shard included, is on a shard the buffer was created with. *)
Theorem spans_on_assigned_shards buffer partitions values now :
  partitions ≠ [] →
  Forall (λ v, ∀ p off, Message.committable v = [(p, off)] →
                        Partition.index p ∈ assigned_shards_of partitions)
    (Message.payload values) →
  (process_batch' buffer (first_partition_of partitions) values).2 = Ok now →
  ∃ spans,
    (process_batch' buffer (first_partition_of partitions) values).1 =
      process_spans buffer spans now ∧
    Forall (λ s, Span.partition s ∈ assigned_shards_of partitions) spans.
Proof.
  intros Hne Hall H. apply process_batch_returns in H as (_ & _ & ->).
  eexists. split; [done|]. apply Forall_forall. intros s Hs.
  apply list_elem_of_omap in Hs as (value & Hin & Hs).
  unfold kept_span in Hs.
  destruct (verdict_of' _ value) as [| |s'] eqn:Hv; simplify_eq.
  apply verdict_Kept_inv in Hv as (d & t & i & p & _ & _ & _ & _ & _ & ->).
  cbn [span_of Span.partition].
  rewrite Forall_forall in Hall. specialize (Hall value Hin).
  assert (first_partition_of partitions ∈ assigned_shards_of partitions) as Hfp.
  { destruct partitions as [|[q o] ps]; [done|]. left. }
  destruct (Message.committable value) as [|[q o] [|??]]; simpl; eauto.
Qed.
End more_batch_facts.

(** ** Switching more of the killswitch on *)

Section killswitch_monotone.
Context {D : Type}.
Variable loads : list Byte.byte → option pyval.
Variable loads_error : list Byte.byte → decode_failure.
Variables narrow wide : string → KillswitchContext.t → bool.
Variable SpansBuffer : Type.
Variable process_spans : SpansBuffer → list Span.t → Z → SpansBuffer.
Hypothesis wider : ∀ name ctx, narrow name ctx = true → wide name ctx = true.

Implicit Types (v : Message.t D (Z * KafkaPayload.t)).
Implicit Types (vs : list (Message.t D (Z * KafkaPayload.t))).

Lemma verdict_of_wider first_partition v :
  failure_of loads loads_error narrow first_partition v = None →
  failure_of loads loads_error wide first_partition v = None ∧
  (kept_span loads loads_error wide first_partition v = None ∨
   kept_span loads loads_error wide first_partition v = kept_span loads loads_error narrow first_partition v).
Proof.
  unfold failure_of, kept_span. rewrite !verdict_of_eq.
  destruct (loads (bytes_of v)) as [[]|]; try done.
  destruct (rejected wide first_partition v d) eqn:Hw; [by auto|].
  destruct (rejected narrow first_partition v d) eqn:Hn.
  { apply wider in Hn. unfold rejected in Hw. congruence. }
  intros H. split; [done|]. by right.
Qed.

Lemma kept_wider first_partition vs :
  Forall (λ v, failure_of loads loads_error narrow first_partition v = None) vs →
  Forall (λ v, failure_of loads loads_error wide first_partition v = None) vs ∧
  kept loads loads_error wide first_partition vs `sublist_of` kept loads loads_error narrow first_partition vs.
Proof.
  unfold kept. induction 1 as [|v vs Hv _ [IH1 IH2]]; [done|].
  destruct (verdict_of_wider first_partition v Hv) as [Hf Hk].
  split; [by constructor|]. cbn [omap list_omap].
  destruct Hk as [-> | ->].
  - destruct (kept_span loads loads_error narrow first_partition v);
      [by apply sublist_cons|done].
  - destruct (kept_span loads loads_error narrow first_partition v);
      [by apply sublist_skip|done].
Qed.

(** X10: a killswitch that matches more never breaks a batch.  If a batch
    goes through under one admission predicate, it goes through under any
    predicate that matches at least as much, with the same [now], and the
    spans handed to the buffer are a subsequence of those handed before. *)
Theorem wider_killswitch_only_drops (buffer : SpansBuffer) first_partition
    (values : Message.t D (list (Message.t D (Z * KafkaPayload.t)))) now :
  (process_batch loads loads_error narrow SpansBuffer process_spans
     buffer first_partition values).2 = Ok now →
  ∃ spans1 spans2,
    (process_batch loads loads_error narrow SpansBuffer process_spans
       buffer first_partition values).1 = process_spans buffer spans1 now ∧
    process_batch loads loads_error wide SpansBuffer process_spans
      buffer first_partition values = (process_spans buffer spans2 now, Ok now) ∧
    spans2 `sublist_of` spans1.
Proof.
  intros H. apply process_batch_returns in H as (Hf & Hm & ->).
  apply first_failure_None in Hf.
  destruct (kept_wider first_partition _ Hf) as [Hf' Hsub].
  eexists _, _. split_and!; [done| |exact Hsub].
  rewrite process_batch_eq.
  apply first_failure_None in Hf'. by rewrite Hf', Hm.
Qed.
End killswitch_monotone.

(** ** The factory and its pool *)

(** X11: the pool is there whenever it is used.  A factory made by
    [__init__] has a pool exactly when [num_processes] is not 1;
    [create_with_partitions] then decodes in that pool, and inline when
    [num_processes] is 1; [shutdown] closes the pool if there is one; none of
    them, [shutdown] a second time included, raises [AttributeError]. *)
Theorem pool_is_there_when_used (Pool Pipe : Type)
    (MultiprocessingPool : Z → Pool) (close : Pool → Pool)
    max_batch_size max_batch_time num_processes
    input_block_size output_block_size (produce_to_pipe : option Pipe)
    partitions :
  let self := Factory.init Pool Pipe MultiprocessingPool
                max_batch_size max_batch_time num_processes
                input_block_size output_block_size produce_to_pipe in
  (is_Some (Factory.pool Pool Pipe self) ↔ num_processes ≠ 1%Z) ∧
  Factory.create_with_partitions Pool Pipe self partitions =
    Ok (Factory.mk_strategy Pool Pipe
          (assigned_shards_of partitions) (first_partition_of partitions)
          (if decide (num_processes = 1%Z) then Factory.RunTask Pool
           else Factory.RunTaskWithMultiprocessing Pool
                  (MultiprocessingPool num_processes)
                  max_batch_size max_batch_time
                  input_block_size output_block_size)
          max_batch_size max_batch_time produce_to_pipe) ∧
  ∃ closed,
    Factory.shutdown Pool Pipe close self = Ok closed ∧
    Factory.pool Pool Pipe closed = close <$> Factory.pool Pool Pipe self ∧
    ∃ again, Factory.shutdown Pool Pipe close closed = Ok again ∧
      Factory.pool Pool Pipe again = close <$> Factory.pool Pool Pipe closed.
Proof.
  cbv zeta. unfold Factory.init, Factory.create_with_partitions, Factory.shutdown.
  cbn [Factory.num_processes Factory.pool]. unfold Factory.get_pool.
  destruct (decide (num_processes = 1%Z)) as [->|Hne].
  - rewrite !decide_False by (by intros ?). cbn.
    split; [split; [by intros [??]|done]|]. split; [done|].
    eexists. split; [done|]. split; [done|]. cbn.
    rewrite decide_False by (by intros ?). by eexists.
  - rewrite !decide_True by done. cbn.
    split; [split; [done|by eexists]|]. split; [done|].
    eexists. split; [done|]. split; [done|]. cbn.
    rewrite decide_True by done. cbn. by eexists.
Qed.

(** ** The extra properties at work *)

Lemma first_bad_payload_decides_witness :
  Forall (λ v, ∃ st, loop_body Scenarios.loads Scenarios.loads_error
                       Demo.killswitch_matches_context 0 (None, []) v = Ok st)
    [Demo.msg_a] ∧
  Scenarios.loads (bytes_of Scenarios.msg_u) = None ∧
  Scenarios.run Demo.killswitch_matches_context
    ([Demo.msg_a] ++ Scenarios.msg_u :: [Demo.msg_b]) =
    ([], Raise UnicodeDecodeError).
Proof.
  assert (Forall (λ v, ∃ st, loop_body Scenarios.loads Scenarios.loads_error
                               Demo.killswitch_matches_context 0 (None, []) v
                             = Ok st) [Demo.msg_a]) as Hb
    by (constructor; [eexists; reflexivity|constructor]).
  assert (Scenarios.loads (bytes_of Scenarios.msg_u) = None) as Hl
    by (vm_compute; reflexivity).
  split; [exact Hb|]. split; [exact Hl|].
  exact (proj1 (first_bad_payload_decides Scenarios.loads Scenarios.loads_error
                  Demo.killswitch_matches_context
                  Demo.SpansBuffer Demo.process_spans [] 0
                  [Demo.msg_a] Scenarios.msg_u [Demo.msg_b]
                  (mjoin (Message.committable <$>
                            [Demo.msg_a] ++ Scenarios.msg_u :: [Demo.msg_b]))
                  None Hb) Hl).
Defined.

Lemma key_error_names_first_missing_key_witness :
  Forall (λ v, ∃ st, loop_body Demo.loads Demo.loads_error Demo.killswitch_matches_context 0
                       (None, []) v = Ok st) [Demo.msg_a] ∧
  Demo.loads (bytes_of Demo.msg_m) = Some (PyDict Demo.record_m) ∧
  rejected Demo.killswitch_matches_context 0 Demo.msg_m Demo.record_m = false ∧
  first_missing_key Demo.record_m = Some "span_id" ∧
  Demo.run 0 ([Demo.msg_a] ++ Demo.msg_m :: [Demo.msg_x]) =
    ([], Raise (KeyError "span_id")).
Proof.
  assert (Forall (λ v, ∃ st, loop_body Demo.loads Demo.loads_error Demo.killswitch_matches_context 0
                               (None, []) v = Ok st) [Demo.msg_a]) as Hb
    by (constructor; [eexists; reflexivity|constructor]).
  assert (Demo.loads (bytes_of Demo.msg_m) = Some (PyDict Demo.record_m)) as Hl
    by (vm_compute; reflexivity).
  assert (rejected Demo.killswitch_matches_context 0 Demo.msg_m Demo.record_m = false)
    as Hr by (vm_compute; reflexivity).
  assert (first_missing_key Demo.record_m = Some "span_id") as Hk
    by (vm_compute; reflexivity).
  split_and!; [exact Hb|exact Hl|exact Hr|exact Hk|].
  exact (key_error_names_first_missing_key Demo.loads Demo.loads_error Demo.killswitch_matches_context
           Demo.SpansBuffer Demo.process_spans [] 0
           [Demo.msg_a] Demo.msg_m [Demo.msg_x]
           (mjoin (Message.committable <$>
                     [Demo.msg_a] ++ Demo.msg_m :: [Demo.msg_x]))
           None Demo.record_m "span_id" Hb Hl Hr Hk).
Defined.

Lemma process_batch_app_witness :
  (Demo.run 0 [Demo.msg_a]).2 = Ok 30%Z ∧
  (Demo.run 0 [Demo.msg_b; Demo.msg_k]).2 = Ok 20%Z ∧
  ∃ spans1 spans2,
    (Demo.run 0 [Demo.msg_a]).1 = Demo.process_spans [] spans1 30%Z ∧
    (Demo.run 0 [Demo.msg_b; Demo.msg_k]).1 = Demo.process_spans [] spans2 20%Z ∧
    Demo.run 0 ([Demo.msg_a] ++ [Demo.msg_b; Demo.msg_k]) =
      (Demo.process_spans [] (spans1 ++ spans2) 20%Z, Ok 20%Z).
Proof.
  assert ((Demo.run 0 [Demo.msg_a]).2 = Ok 30%Z) as H1 by (vm_compute; reflexivity).
  assert ((Demo.run 0 [Demo.msg_b; Demo.msg_k]).2 = Ok 20%Z) as H2
    by (vm_compute; reflexivity).
  split; [exact H1|]. split; [exact H2|].
  exact (process_batch_app Demo.loads Demo.loads_error Demo.killswitch_matches_context
           Demo.SpansBuffer Demo.process_spans [] 0
           [Demo.msg_a] [Demo.msg_b; Demo.msg_k] _ None _ None
           (mjoin (Message.committable <$> [Demo.msg_a] ++ [Demo.msg_b; Demo.msg_k]))
           None 30%Z 20%Z H1 H2).
Defined.

Lemma process_batch_permutation_witness :
  [Demo.msg_a; Demo.msg_b'] ≡ₚ [Demo.msg_b'; Demo.msg_a] ∧
  (Demo.run 0 [Demo.msg_a; Demo.msg_b']).2 = Ok 10%Z ∧
  ∃ spans1 spans2,
    (Demo.run 0 [Demo.msg_a; Demo.msg_b']).1 = Demo.process_spans [] spans1 10%Z ∧
    Demo.run 0 [Demo.msg_b'; Demo.msg_a] =
      (Demo.process_spans [] spans2 10%Z, Ok 10%Z) ∧
    spans1 ≡ₚ spans2.
Proof.
  assert ([Demo.msg_a; Demo.msg_b'] ≡ₚ [Demo.msg_b'; Demo.msg_a]) as Hp
    by apply perm_swap.
  assert ((Demo.run 0 [Demo.msg_a; Demo.msg_b']).2 = Ok 10%Z) as H
    by (vm_compute; reflexivity).
  split; [exact Hp|]. split; [exact H|].
  exact (process_batch_permutation Demo.loads Demo.loads_error Demo.killswitch_matches_context
           Demo.SpansBuffer Demo.process_spans [] 0
           [Demo.msg_a; Demo.msg_b'] [Demo.msg_b'; Demo.msg_a] _ None _ None
           10%Z Hp H).
Defined.

Lemma spans_and_rejections_add_up_witness :
  (Demo.run 0 [Demo.msg_a; Demo.msg_k; Demo.msg_b]).2 = Ok 20%Z ∧
  ∃ spans,
    (Demo.run 0 [Demo.msg_a; Demo.msg_k; Demo.msg_b]).1 =
      Demo.process_spans [] spans 20%Z ∧
    length spans +
      length (filter (λ v, is_rejected Demo.loads Demo.killswitch_matches_context
                             0 v = true)
                [Demo.msg_a; Demo.msg_k; Demo.msg_b]) = 3.
Proof.
  assert ((Demo.run 0 [Demo.msg_a; Demo.msg_k; Demo.msg_b]).2 = Ok 20%Z) as H
    by (vm_compute; reflexivity).
  split; [exact H|].
  exact (spans_and_rejections_add_up Demo.loads Demo.loads_error Demo.killswitch_matches_context
           Demo.SpansBuffer Demo.process_spans [] 0
           (Demo.batch [Demo.msg_a; Demo.msg_k; Demo.msg_b]) 20%Z H).
Defined.

Lemma nothing_lost_without_rejection_witness :
  Forall (λ v, is_rejected Demo.loads Demo.killswitch_matches_context 0 v = false)
    [Demo.msg_a; Demo.msg_b; Demo.msg_r] ∧
  (Demo.run 0 [Demo.msg_a; Demo.msg_b; Demo.msg_r]).2 = Ok 30%Z ∧
  ∃ spans,
    (Demo.run 0 [Demo.msg_a; Demo.msg_b; Demo.msg_r]).1 =
      Demo.process_spans [] spans 30%Z ∧
    Span.payload <$> spans =
      bytes_of <$> [Demo.msg_a; Demo.msg_b; Demo.msg_r].
Proof.
  assert (Forall (λ v, is_rejected Demo.loads Demo.killswitch_matches_context 0 v
                       = false) [Demo.msg_a; Demo.msg_b; Demo.msg_r]) as Hall
    by (repeat constructor).
  assert ((Demo.run 0 [Demo.msg_a; Demo.msg_b; Demo.msg_r]).2 = Ok 30%Z) as H
    by (vm_compute; reflexivity).
  split; [exact Hall|]. split; [exact H|].
  exact (nothing_lost_without_rejection Demo.loads Demo.loads_error Demo.killswitch_matches_context
           Demo.SpansBuffer Demo.process_spans [] 0
           (Demo.batch [Demo.msg_a; Demo.msg_b; Demo.msg_r]) 30%Z Hall H).
Defined.

Lemma ingested_spans_passed_killswitch_witness :
  (Demo.run 0 [Demo.msg_a; Demo.msg_k; Demo.msg_b]).2 = Ok 20%Z ∧
  ∃ spans,
    (Demo.run 0 [Demo.msg_a; Demo.msg_k; Demo.msg_b]).1 =
      Demo.process_spans [] spans 20%Z ∧
    Forall (λ s, ∃ org,
        Demo.killswitch_matches_context "spans.drop-in-buffer"
          (KillswitchContext.mk org (Span.project_id s) (Span.trace_id s)
             (Span.partition s)) = false) spans.
Proof.
  assert ((Demo.run 0 [Demo.msg_a; Demo.msg_k; Demo.msg_b]).2 = Ok 20%Z) as H
    by (vm_compute; reflexivity).
  split; [exact H|].
  exact (ingested_spans_passed_killswitch Demo.loads Demo.loads_error Demo.killswitch_matches_context
           Demo.SpansBuffer Demo.process_spans [] 0
           (Demo.batch [Demo.msg_a; Demo.msg_k; Demo.msg_b]) 20%Z H).
Defined.

Lemma span_fields_from_record_witness :
  Message.payload (Demo.batch [Demo.msg_a; Demo.msg_k; Demo.msg_b; Demo.msg_r]) ≠ [] ∧
  Forall (λ v, is_usable Demo.loads Demo.killswitch_matches_context 0 v = true)
    [Demo.msg_a; Demo.msg_k; Demo.msg_b; Demo.msg_r] ∧
  ∃ now spans,
    Demo.run 0 [Demo.msg_a; Demo.msg_k; Demo.msg_b; Demo.msg_r] =
      (Demo.process_spans [] spans now, Ok now) ∧
    Forall2 (λ v s, ∃ d,
        Demo.loads (bytes_of v) = Some (PyDict d) ∧
        Span.payload s = bytes_of v ∧
        d !! "trace_id" = Some (Span.trace_id s) ∧
        d !! "span_id" = Some (Span.span_id s) ∧
        d !! "project_id" = Some (Span.project_id s) ∧
        Span.parent_span_id s = default PyNone (d !! "parent_span_id"))
      [Demo.msg_a; Demo.msg_b; Demo.msg_r] spans.
Proof.
  assert (Message.payload
            (Demo.batch [Demo.msg_a; Demo.msg_k; Demo.msg_b; Demo.msg_r]) ≠ [])
    as Hne by discriminate.
  assert (Forall (λ v, is_usable Demo.loads Demo.killswitch_matches_context 0 v
                       = true)
            [Demo.msg_a; Demo.msg_k; Demo.msg_b; Demo.msg_r]) as Hall
    by (repeat constructor).
  split; [exact Hne|]. split; [exact Hall|].
  exact (span_fields_from_record Demo.loads Demo.loads_error
           Demo.killswitch_matches_context Demo.SpansBuffer Demo.process_spans
           [] 0 (Demo.batch [Demo.msg_a; Demo.msg_k; Demo.msg_b; Demo.msg_r])
           Hne Hall).
Defined.

Lemma spans_on_assigned_shards_witness :
  Scenarios.partitions ≠ [] ∧
  Forall (λ v, ∀ p off, Message.committable v = [(p, off)] →
                        Partition.index p ∈ assigned_shards_of Scenarios.partitions)
    [Demo.msg_a; Demo.msg_b'] ∧
  (Demo.run 1 [Demo.msg_a; Demo.msg_b']).2 = Ok 10%Z ∧
  ∃ spans,
    (Demo.run 1 [Demo.msg_a; Demo.msg_b']).1 = Demo.process_spans [] spans 10%Z ∧
    Forall (λ s, Span.partition s ∈ assigned_shards_of Scenarios.partitions) spans.
Proof.
  assert (Scenarios.partitions ≠ []) as Hne by discriminate.
  assert (Forall (λ v, ∀ p off, Message.committable v = [(p, off)] →
                   Partition.index p ∈ assigned_shards_of Scenarios.partitions)
            [Demo.msg_a; Demo.msg_b']) as Hall.
  { constructor; [intros p off [= <- _]; left|].
    constructor; [intros p off [= <- _]; right; left|constructor]. }
  assert ((Demo.run 1 [Demo.msg_a; Demo.msg_b']).2 = Ok 10%Z) as H
    by (vm_compute; reflexivity).
  split_and!; [exact Hne|exact Hall|exact H|].
  exact (spans_on_assigned_shards Demo.loads Demo.loads_error Demo.killswitch_matches_context
           Demo.SpansBuffer Demo.process_spans [] Scenarios.partitions
           (Demo.batch [Demo.msg_a; Demo.msg_b']) 10%Z Hne Hall H).
Defined.

Lemma wider_killswitch_only_drops_witness :
  (∀ name ctx, Scenarios.killswitch_off name ctx = true →
               Demo.killswitch_matches_context name ctx = true) ∧
  (Scenarios.run Scenarios.killswitch_off [Demo.msg_a; Scenarios.msg_s]).2 =
    Ok 25%Z ∧
  ∃ spans1 spans2,
    (Scenarios.run Scenarios.killswitch_off [Demo.msg_a; Scenarios.msg_s]).1 =
      Demo.process_spans [] spans1 25%Z ∧
    Scenarios.run Demo.killswitch_matches_context [Demo.msg_a; Scenarios.msg_s] =
      (Demo.process_spans [] spans2 25%Z, Ok 25%Z) ∧
    spans2 `sublist_of` spans1.
Proof.
  assert (∀ name ctx, Scenarios.killswitch_off name ctx = true →
                      Demo.killswitch_matches_context name ctx = true) as Hw
    by (intros name ctx H; discriminate H).
  assert ((Scenarios.run Scenarios.killswitch_off
             [Demo.msg_a; Scenarios.msg_s]).2 = Ok 25%Z) as H
    by (vm_compute; reflexivity).
  split; [exact Hw|]. split; [exact H|].
  exact (wider_killswitch_only_drops Scenarios.loads Scenarios.loads_error Scenarios.killswitch_off
           Demo.killswitch_matches_context Demo.SpansBuffer Demo.process_spans Hw
           [] 0 (Demo.batch [Demo.msg_a; Scenarios.msg_s]) 25%Z H).
Defined.

(** The same batch under the two killswitches: two spans, then one. *)
Example run_killswitch_off_then_on :
  ∃ sa ss,
    Scenarios.run Scenarios.killswitch_off [Demo.msg_a; Scenarios.msg_s] =
      ([([sa; ss], 25%Z)], Ok 25%Z) ∧
    Scenarios.run Demo.killswitch_matches_context [Demo.msg_a; Scenarios.msg_s] =
      ([([sa], 25%Z)], Ok 25%Z).
Proof. do 2 eexists. split; vm_compute; reflexivity. Qed.
